(** * source-chat-relay: the relay server (server/relay/relay.go)

    A shallow embedding of the relay: the registry of client connections,
    the authentication handshake, packet dispatch and the routing loop,
    followed by the properties of the design document that are settled on
    it.

    Conventions.
    - A [*RelayClient] is a location [ptr] in [heap]; the methods of
      [*Relay] take the world (the relay's fields, the heap and the
      identity store) and give the new world.
    - A function that can panic in Go (nil dereference, send on or close of
      a closed channel) returns [option]; [None] is the panic.
    - The packages [protocol], [packet], [filter] and [entity] are the
      collaborators of relay.go. What relay.go needs of them is kept as an
      interface (a class) or modelled from the design document; each such
      definition says so. *)

From Stdlib Require Import Strings.Byte.
From stdpp Require Import base option list gmap fin_maps strings.

Local Open Scope string_scope.
Local Open Scope list_scope.

Abbreviation ptr := positive (only parsing).
Abbreviation bytes := (list byte) (only parsing).

(** ** package protocol *)
Module protocol.

(** The type tag of a frame. relay.go names three tags; every other tag
    value takes the [default] branch of its switch. *)
Inductive MessageType :=
| MessageAuthenticate
| MessageChat
| MessageEvent
| MessageOther (tag : N).

Global Instance MessageType_eq_dec : EqDecision MessageType.
Proof. solve_decision. Defined.

(** The fields of [BaseMessage] that relay.go reads and writes. *)
Record BaseMessage := {
  Type_ : MessageType;
  SenderID : string;
  Hostname : string;
}.

Record AuthenticateMessage := {
  Token : string;
  AuthHostname : string;
}.

Inductive AuthenticateResponse := AuthenticateSuccess | AuthenticateDenied.

Record AuthenticateMessageResponse := { Response : AuthenticateResponse }.

(** Modelled from the spec: the message types of package protocol are not
    in relay.go. A deliverable has the "common fields: type tag, author
    identity id, author hostname, plus type-specific payload (chat text,
    or event data)"; the common fields are the [BaseMessage] the parser was
    given. *)
Inductive Deliverable :=
| ChatMessage (base : BaseMessage) (text : string)
| EventMessage (base : BaseMessage) (data : string).

Definition Base (m : Deliverable) : BaseMessage :=
  match m with ChatMessage b _ | EventMessage b _ => b end.

Definition Author (m : Deliverable) : string := SenderID (Base m).

Definition Content (m : Deliverable) : string :=
  match m with ChatMessage _ t => t | EventMessage _ d => d end.

(** The wire codec: byte layouts are the codec's business, relay.go only
    calls it. [ParseBaseMessage] gives the header and the reader advanced
    past it. *)
Class Codec := {
  ParseBaseMessage : bytes → BaseMessage * bytes;
  ParseAuthenticateMessage : BaseMessage → bytes → AuthenticateMessage;
  decode_chat : bytes → string;
  decode_event : bytes → string;
  Marshal : Deliverable → bytes;
  MarshalResponse : AuthenticateMessageResponse → bytes;
}.

Definition ParseChatMessage `{Codec} (base : BaseMessage) (reader : bytes)
  : Deliverable := ChatMessage base (decode_chat reader).

Definition ParseEventMessage `{Codec} (base : BaseMessage) (reader : bytes)
  : Deliverable := EventMessage base (decode_event reader).

End protocol.

(** ** package filter *)
Module filter.

(** The content filter: "[matches(text) -> bool], pure, no side effects". *)
Class Filter := { IsInFilter : string → bool }.

End filter.

(** ** package entity *)
Module entity.

Record Entity := {
  ID : string;
  DisplayName : string;
  ReceiveChannels : list Z;
  SendChannels : list Z;
}.

(** [sql.ErrNoRows] and any other error of the store. *)
Inductive error := ErrNoRows | ErrStore.

(** Modelled from the spec: the identity store keeps one record per id,
    "[id] (the authentication token, stable, unique)"; a row holds the
    other fields of the record. *)
Record Row := {
  display_name : string;
  receive_channels : list Z;
  send_channels : list Z;
}.

Definition of_row (id : string) (r : Row) : Entity :=
  {| ID := id; DisplayName := display_name r;
     ReceiveChannels := receive_channels r; SendChannels := send_channels r |}.

Definition to_row (e : Entity) : Row :=
  {| display_name := DisplayName e; receive_channels := ReceiveChannels e;
     send_channels := SendChannels e |}.

Definition with_display_name (name : string) (r : Row) : Row :=
  {| display_name := name; receive_channels := receive_channels r;
     send_channels := send_channels r |}.

(** Which operations of the store fail. A failing lookup still leaves the
    caller "the best-effort record obtained". *)
Class Faults := {
  get_fault : string → option Entity;
  insert_fault : Entity → bool;
  set_fault : string → string → bool;
}.

Definition zero : Entity :=
  {| ID := ""; DisplayName := ""; ReceiveChannels := []; SendChannels := [] |}.

(** Modelled from the spec: package entity is not in relay.go.
    "[get(id) -> Record | NotFound | StoreError]". *)
Definition GetEntity `{Faults} (st : gmap string Row) (id : string)
  : Entity * option error :=
  match get_fault id with
  | Some e => (e, Some ErrStore)
  | None =>
      match st !! id with
      | Some r => (of_row id r, None)
      | None => (zero, Some ErrNoRows)
      end
  end.

(** Modelled from the spec: "[insert(Record) -> Ok | StoreError]". *)
Definition Insert `{Faults} (e : Entity) (st : gmap string Row)
  : gmap string Row * option error :=
  if insert_fault e then (st, Some ErrStore)
  else (<[ID e := to_row e]> st, None).

(** Modelled from the spec: "[set_display_name(Record, name) -> Ok |
    StoreError]", which "updates the identity record's display name". *)
Definition SetDisplayName `{Faults} (e : Entity) (name : string)
  (st : gmap string Row) : gmap string Row :=
  if set_fault (ID e) name then st
  else alter (with_display_name name) (ID e) st.

(** Modelled from the spec: "non-empty set intersection — any shared
    channel id qualifies". *)
Definition ReceiveIntersectsWith (e : Entity) (channels : list Z) : bool :=
  existsb (λ c, existsb (Z.eqb c) channels) (ReceiveChannels e).

(** Modelled from the spec: the target channels of a message are "derived
    from the author's identity record, not from client-supplied data". *)
Definition DeliverableSendChannels `{Faults} (st : gmap string Row)
  (m : protocol.Deliverable) : list Z :=
  match GetEntity st (protocol.Author m) with
  | (e, None) => SendChannels e
  | (_, Some _) => []
  end.

End entity.

(** ** package relay *)
Module relay.
Import protocol filter.

(** *** Channels and connections *)

(** A Go channel of frames, as far as a non-blocking send and [close] see
    it. [ch_room] counts the sends that complete without blocking: the
    free buffer slots plus the receivers parked on the channel. For the
    unbuffered [make(chan []byte)] it is 1 while [ListenClientSend] waits
    at [<-c.Data] and 0 otherwise. [ch_log] is every frame the channel has
    accepted, oldest first. *)
Record chan := {
  ch_log : list bytes;
  ch_room : nat;
  ch_closed : bool;
}.

Definition make_chan : chan :=
  {| ch_log := []; ch_room := 0; ch_closed := false |}.

Inductive send_result := Sent (ch : chan) | WouldBlock | SendOnClosed.

(** [select { case ch <- v: ...; default: ... }] *)
Definition try_send (ch : chan) (v : bytes) : send_result :=
  if ch_closed ch then SendOnClosed
  else match ch_room ch with
       | O => WouldBlock
       | S n => Sent {| ch_log := ch_log ch ++ [v]; ch_room := n;
                        ch_closed := false |}
       end.

(** [close(ch)] *)
Definition close (ch : chan) : option chan :=
  if ch_closed ch then None
  else Some {| ch_log := ch_log ch; ch_room := ch_room ch; ch_closed := true |}.

(** A [net.Conn]: the frames handed to [Write], oldest first, and whether
    [Close] was called. relay.go drops the results of [Write]. *)
Record Conn := {
  sock_out : list bytes;
  sock_closed : bool;
}.

Record RelayClient := {
  Socket : Conn;
  Data : chan;
  ID : string;
  Hostname : string;
}.

Definition Authenticated (c : RelayClient) : bool :=
  negb (String.length (ID c) =? 0)%nat.

Definition with_Data (ch : chan) (c : RelayClient) : RelayClient :=
  {| Socket := Socket c; Data := ch; ID := ID c; Hostname := Hostname c |}.

Definition with_Socket (s : Conn) (c : RelayClient) : RelayClient :=
  {| Socket := s; Data := Data c; ID := ID c; Hostname := Hostname c |}.

Definition with_binding (id hostname : string) (c : RelayClient) : RelayClient :=
  {| Socket := Socket c; Data := Data c; ID := id; Hostname := hostname |}.

(** *** The world *)

(** The fields of [Relay] ([Clients], [Router], [Bot]), the memory its
    client pointers point into, and the identity store behind package
    entity. [Router] holds the submissions not yet received by
    [StartRouting], oldest first; [Bot] what was handed to the bridge,
    oldest first. *)
Record World := {
  Clients : gmap ptr bool;
  Router : list Deliverable;
  Bot : list Deliverable;
  heap : gmap ptr RelayClient;
  store : gmap string entity.Row;
}.

Definition set_Clients (cs : gmap ptr bool) (w : World) : World :=
  {| Clients := cs; Router := Router w; Bot := Bot w; heap := heap w;
     store := store w |}.

Definition set_Router (q : list Deliverable) (w : World) : World :=
  {| Clients := Clients w; Router := q; Bot := Bot w; heap := heap w;
     store := store w |}.

Definition set_Bot (b : list Deliverable) (w : World) : World :=
  {| Clients := Clients w; Router := Router w; Bot := b; heap := heap w;
     store := store w |}.

Definition set_heap (h : gmap ptr RelayClient) (w : World) : World :=
  {| Clients := Clients w; Router := Router w; Bot := Bot w; heap := h;
     store := store w |}.

Definition set_store (st : gmap string entity.Row) (w : World) : World :=
  {| Clients := Clients w; Router := Router w; Bot := Bot w; heap := heap w;
     store := st |}.

(** [NewRelay] *)
Definition NewRelay : World :=
  {| Clients := ∅; Router := []; Bot := []; heap := ∅; store := ∅ |}.

(** The order in which [for client := range r.Clients] visits the keys:
    any enumeration of them, each key once. *)
Class RangeOrder := {
  range_keys : gmap ptr bool → list ptr;
  range_keys_perm : ∀ m, range_keys m ≡ₚ (map_to_list m).*1;
}.

Section Relay.
Context `{Codec} `{Filter} `{entity.Faults} `{RangeOrder}.

(** [c.Socket.Write(frame)] *)
Definition Socket_Write (c : ptr) (frame : bytes) (w : World) : option World :=
  cl ← heap w !! c;
  Some (set_heap (<[c := with_Socket
          {| sock_out := sock_out (Socket cl) ++ [frame];
             sock_closed := sock_closed (Socket cl) |} cl]> (heap w)) w).

(** [c.Socket.Close()] *)
Definition Socket_Close (c : ptr) (w : World) : option World :=
  cl ← heap w !! c;
  Some (set_heap (<[c := with_Socket
          {| sock_out := sock_out (Socket cl); sock_closed := true |} cl]>
          (heap w)) w).

Definition AddClient (c : ptr) (w : World) : World :=
  set_Clients (<[c := true]> (Clients w)) w.

(** One turn of [ProcessConnections] after a successful [Accept]: the
    client at the new pointer [c], with an unbuffered mailbox and no
    binding, is registered. *)
Definition ProcessConnections_accept (c : ptr) (conn : Conn) (w : World)
  : World :=
  AddClient c
    (set_heap (<[c := {| Socket := conn; Data := make_chan; ID := "";
                         Hostname := "" |}]> (heap w)) w).

Definition RemoveClient (c : ptr) (w : World) : option World :=
  match Clients w !! c with
  | Some _ =>
      cl ← heap w !! c;
      ch ← close (Data cl);
      Some (set_Clients (delete c (Clients w))
              (set_heap (<[c := with_Data ch cl]> (heap w)) w))
  | None => Some w
  end.

(** The tail of [AuthenticateClient]: the display name goes to the
    store, the token and hostname are bound to the connection. *)
Definition bind_client (c : ptr) (tEntity : entity.Entity)
  (packet : AuthenticateMessage) (w : World) : option World :=
  let w := set_store
             (entity.SetDisplayName tEntity (AuthHostname packet) (store w)) w in
  cl ← heap w !! c;
  Some (set_heap (<[c := with_binding (Token packet) (AuthHostname packet) cl]>
                    (heap w)) w).

Definition AuthenticateClient (c : ptr) (packet : AuthenticateMessage)
  (w : World) : option World :=
  let '(tEntity, err) := entity.GetEntity (store w) (Token packet) in
  match err with
  | Some entity.ErrNoRows =>
      let tEntity :=
        {| entity.ID := Token packet; entity.DisplayName := "";
           entity.ReceiveChannels := []; entity.SendChannels := [] |} in
      match entity.Insert tEntity (store w) with
      | (st, Some _) => Some (set_store st w)
      | (st, None) => bind_client c tEntity packet (set_store st w)
      end
  | _ => bind_client c tEntity packet w
  end.

Definition with_sender (id hostname : string) (base : BaseMessage) : BaseMessage :=
  {| Type_ := Type_ base; SenderID := id; protocol.Hostname := hostname |}.

Definition HandlePacket (client : ptr) (buffer : bytes) (w : World)
  : option World :=
  let '(base, reader) := ParseBaseMessage buffer in
  match Type_ base with
  | MessageAuthenticate =>
      let authenticateMessage := ParseAuthenticateMessage base reader in
      if (String.length (Token authenticateMessage) =? 0)%nat
         || (String.length (AuthHostname authenticateMessage) =? 0)%nat
      then
        Socket_Write client
          (MarshalResponse {| Response := AuthenticateDenied |}) w
      else
        w ← AuthenticateClient client authenticateMessage w;
        Socket_Write client
          (MarshalResponse {| Response := AuthenticateSuccess |}) w
  | _ =>
      cl ← heap w !! client;
      if negb (Authenticated cl) then Some w
      else
        let base := with_sender (ID cl) (Hostname cl) base in
        match Type_ base with
        | MessageChat =>
            Some (set_Router (Router w ++ [ParseChatMessage base reader]) w)
        | MessageEvent =>
            Some (set_Router (Router w ++ [ParseEventMessage base reader]) w)
        | _ =>
            w ← RemoveClient client w;
            Socket_Close client w
        end
  end.

(** [ListenClientReceive] over what the successive [Read]s give: [Some]
    buffer, or [None] for an error. *)
Fixpoint ListenClientReceive (c : ptr) (reads : list (option bytes))
  (w : World) : option World :=
  match reads with
  | [] => Some w
  | None :: _ =>
      w ← RemoveClient c w;
      Socket_Close c w
  | Some buffer :: reads =>
      match buffer with
      | [] => ListenClientReceive c reads w
      | _ => w ← HandlePacket c buffer w; ListenClientReceive c reads w
      end
  end.

(** [ListenClientSend] over what the successive receives from [c.Data]
    give: [Some] frame, or [None] once the mailbox is closed. The deferred
    [c.Socket.Close()] runs when the loop returns. *)
Fixpoint ListenClientSend (c : ptr) (recvs : list (option bytes))
  (w : World) : option World :=
  match recvs with
  | [] => Some w
  | None :: _ => Socket_Close c w
  | Some message :: recvs =>
      w ← Socket_Write c message w;
      ListenClientSend c recvs w
  end.

(** The body of the loop over [r.Clients] in [StartRouting]. *)
Definition deliver (message : Deliverable) (client : ptr) (w : World)
  : option World :=
  cl ← heap w !! client;
  match entity.GetEntity (store w) (ID cl) with
  | (_, Some _) => Some w
  | (tEntity, None) =>
      if negb (String.eqb (ID cl) (Author message))
         && entity.ReceiveIntersectsWith tEntity
              (entity.DeliverableSendChannels (store w) message)
      then
        match try_send (Data cl) (Marshal message) with
        | Sent ch => Some (set_heap (<[client := with_Data ch cl]> (heap w)) w)
        | WouldBlock =>
            ch ← close (Data cl);
            Some (set_Clients (delete client (Clients w))
                    (set_heap (<[client := with_Data ch cl]> (heap w)) w))
        | SendOnClosed => None
        end
      else Some w
  end.

(** [for client := range r.Clients { ... }] over the keys in the order
    the runtime picked. The body deletes no key but the one it is at, so
    every key of the map at loop entry is visited. *)
Fixpoint fanout (message : Deliverable) (order : list ptr) (w : World)
  : option World :=
  match order with
  | [] => Some w
  | client :: order => w ← deliver message client w; fanout message order w
  end.

(** What has become of the routing goroutine: back at [<-r.Router], or
    gone. *)
Inductive Routine := Receiving | Returned.

(** The body of [case message := <-r.Router:]. *)
Definition route (message : Deliverable) (w : World)
  : option (Routine * World) :=
  if IsInFilter (Content message) then Some (Returned, w)
  else
    w ← fanout message (range_keys (Clients w)) w;
    Some (Receiving, set_Bot (Bot w ++ [message]) w).

(** [StartRouting] over the submissions waiting on [r.Router], until the
    loop returns or has nothing left to receive. *)
Fixpoint routing (pending : list Deliverable) (w : World)
  : option (Routine * World) :=
  match pending with
  | [] => Some (Receiving, set_Router [] w)
  | message :: pending =>
      '(g, w) ← route message (set_Router pending w);
      match g with
      | Returned => Some (Returned, w)
      | Receiving => routing pending w
      end
  end.

Definition StartRouting (w : World) : option (Routine * World) :=
  routing (Router w) w.

(** Every registered client is allocated and its mailbox is open:
    [close(c.Data)] and [delete(r.Clients, c)] only come together. *)
Definition registered_open (w : World) : bool :=
  forallb
    (λ c, match heap w !! c with
          | Some cl => negb (ch_closed (Data cl))
          | None => false
          end)
    (map_to_list (Clients w)).*1.

End Relay.
End relay.

(** ** A concrete codec, filter and store behaviour to run the model on *)
Module demo.
Import protocol filter relay.

(** Frames of the examples: a tag byte, then NUL-terminated fields: sender
    id, hostname, and the token or the text. *)
Fixpoint read_cstring (bs : bytes) : bytes * bytes :=
  match bs with
  | [] => ([], [])
  | x00 :: rest => ([], rest)
  | b :: rest => let '(s, rest) := read_cstring rest in (b :: s, rest)
  end.

Definition tag_of (b : byte) : MessageType :=
  match b with
  | x01 => MessageAuthenticate
  | x03 => MessageChat
  | x04 => MessageEvent
  | _ => MessageOther (Byte.to_N b)
  end.

Definition cstring (s : string) : bytes := String.list_byte_of_string s ++ [x00].

Definition frame (tag : byte) (sender hostname body : string) : bytes :=
  tag :: cstring sender ++ cstring hostname ++ cstring body.

#[local] Instance codec : Codec := {|
  ParseBaseMessage bs :=
    match bs with
    | [] => ({| Type_ := MessageOther 0; SenderID := ""; protocol.Hostname := "" |}, [])
    | t :: rest =>
        let '(sid, rest) := read_cstring rest in
        let '(host, rest) := read_cstring rest in
        ({| Type_ := tag_of t; SenderID := String.string_of_list_byte sid;
            protocol.Hostname := String.string_of_list_byte host |}, rest)
    end;
  ParseAuthenticateMessage base rest :=
    {| Token := String.string_of_list_byte (read_cstring rest).1;
       AuthHostname := protocol.Hostname base |};
  decode_chat rest := String.string_of_list_byte (read_cstring rest).1;
  decode_event rest := String.string_of_list_byte (read_cstring rest).1;
  Marshal m :=
    match m with
    | ChatMessage b t => frame x03 (SenderID b) (protocol.Hostname b) t
    | EventMessage b d => frame x04 (SenderID b) (protocol.Hostname b) d
    end;
  MarshalResponse r :=
    match Response r with
    | AuthenticateSuccess => [x02; x01]
    | AuthenticateDenied => [x02; x00]
    end;
|}.

#[local] Instance no_spam : Filter := {| IsInFilter s := String.eqb s "spam" |}.

#[local] Instance sound_store : entity.Faults := {|
  entity.get_fault _ := None;
  entity.insert_fault _ := false;
  entity.set_fault _ _ := false;
|}.

#[local] Instance full_store : entity.Faults := {|
  entity.get_fault _ := None;
  entity.insert_fault _ := true;
  entity.set_fault _ _ := false;
|}.

#[local] Instance key_order : RangeOrder := {|
  range_keys m := (map_to_list m).*1;
  range_keys_perm _ := Permutation_refl _;
|}.

Definition open_conn : Conn := {| sock_out := []; sock_closed := false |}.

(** A registered client whose send loop waits at [<-c.Data]. *)
Definition waiting (id hostname : string) : RelayClient :=
  {| Socket := open_conn;
     Data := {| ch_log := []; ch_room := 1; ch_closed := false |};
     ID := id; Hostname := hostname |}.

(** A registered client whose send loop is not at [<-c.Data]. *)
Definition busy (id hostname : string) : RelayClient :=
  {| Socket := open_conn; Data := make_chan; ID := id; Hostname := hostname |}.

Definition row (recv send : list Z) : entity.Row :=
  {| entity.display_name := ""; entity.receive_channels := recv;
     entity.send_channels := send |}.

Definition hello : Deliverable :=
  ChatMessage {| Type_ := MessageChat; SenderID := "tok1";
                 protocol.Hostname := "srvA" |} "hello".

Definition spam : Deliverable :=
  ChatMessage {| Type_ := MessageChat; SenderID := "tok1";
                 protocol.Hostname := "srvA" |} "spam".

Definition tok_store : gmap string entity.Row :=
  <["tok1" := row [] [1%Z]]>
    (<["tok2" := row [1%Z] []]> (<["tok3" := row [1%Z; 2%Z] []]> ∅)).

(** Three registered clients, at 1, 2 and 3, over [tok_store]. *)
Definition world (x y z : RelayClient) (q : list Deliverable) : World :=
  {| Clients := <[1%positive := true]> (<[2%positive := true]> (<[3%positive := true]> ∅));
     Router := q; Bot := [];
     heap := <[1%positive := x]> (<[2%positive := y]> (<[3%positive := z]> ∅));
     store := tok_store |}.

(** X = 1 is bound to tok1 (sends on channel 1), Y = 2 to tok2 (receives
    on 1) with its send loop waiting, Z = 3 to tok3 (receives on 1 and 2)
    with its send loop away from the mailbox. *)
Definition w0 (q : list Deliverable) : World :=
  world (waiting "tok1" "srvA") (waiting "tok2" "srvB") (busy "tok3" "srvC") q.

(** The same with an unauthenticated X. *)
Definition w_new : World :=
  world (waiting "" "") (waiting "tok2" "srvB") (busy "tok3" "srvC") [].

Definition tok9 : AuthenticateMessage :=
  {| Token := "tok9"; AuthHostname := "hostZ" |}.

(** What one connection reads over its life: an Authenticate packet, a chat
    packet, a packet of an undeclared type, then a failed read. *)
Definition session : list (option bytes) :=
  [Some (frame x01 "" "hostZ" "tok9"); Some (frame x03 "evil" "fake" "hi");
   Some (frame x09 "" "" ""); None].

End demo.

(** ** The vocabulary of the properties *)
Section Vocabulary.
Import protocol filter relay.
Context `{Codec} `{entity.Faults}.

Definition intersects (xs ys : list Z) : Prop := ∃ ch, ch ∈ xs ∧ ch ∈ ys.

(** Whether the loop body gets to the [select] for this client. *)
Definition eligible (st : gmap string entity.Row) (m : Deliverable)
  (cl : RelayClient) : bool :=
  match entity.GetEntity st (ID cl) with
  | (_, Some _) => false
  | (tEntity, None) =>
      negb (String.eqb (ID cl) (Author m))
      && entity.ReceiveIntersectsWith tEntity
           (entity.DeliverableSendChannels st m)
  end.

(** Step 2 of [route]: the connection's identity differs from the author's
    and the record the store gives for it receives on one of the
    message's target channels. *)
Definition recipient (w : World) (m : Deliverable) (cl : RelayClient) : Prop :=
  ∃ e, entity.GetEntity (store w) (ID cl) = (e, None)
       ∧ ID cl ≠ Author m
       ∧ intersects (entity.ReceiveChannels e)
           (entity.DeliverableSendChannels (store w) m).

(** What one step may do to the registry without breaking
    [registered_open]: it registers nobody and leaves the mailboxes of the
    registered clients alone. *)
Definition keeps (w w' : World) : Prop :=
  ∀ d, is_Some (Clients w' !! d) →
       is_Some (Clients w !! d) ∧ Data <$> heap w' !! d = Data <$> heap w !! d.

(** The record [AuthenticateClient] creates for an unseen token. *)
Definition fresh_entity (p : AuthenticateMessage) : entity.Entity :=
  {| entity.ID := Token p; entity.DisplayName := "";
     entity.ReceiveChannels := []; entity.SendChannels := [] |}.

(** Whether the header of a frame declares the type Authenticate. *)
Definition is_authenticate (buf : bytes) : bool :=
  bool_decide (Type_ (ParseBaseMessage buf).1 = MessageAuthenticate).

(** The frames a loop gets before the first failed read or receive. *)
Fixpoint frames_until_close (recvs : list (option bytes)) : list bytes :=
  match recvs with
  | Some frame :: recvs => frame :: frames_until_close recvs
  | _ => []
  end.

(** A mailbox after [close], a socket after [Close], a client after the
    response to an Authenticate packet was written to its socket. *)
Definition closed_chan (ch : chan) : chan :=
  {| ch_log := ch_log ch; ch_room := ch_room ch; ch_closed := true |}.

Definition closed_sock (s : Conn) : Conn :=
  {| sock_out := sock_out s; sock_closed := true |}.

Definition respond (r : AuthenticateResponse) (cl : RelayClient) : RelayClient :=
  with_Socket
    {| sock_out := sock_out (Socket cl) ++ [MarshalResponse {| Response := r |}];
       sock_closed := sock_closed (Socket cl) |} cl.

(** The response [HandlePacket] gives to an Authenticate packet. *)
Definition response_to (p : AuthenticateMessage) : AuthenticateResponse :=
  if decide (Token p = "" ∨ AuthHostname p = "") then AuthenticateDenied
  else AuthenticateSuccess.

(** The responses the receive loop owes to the packets it dispatched: one
    per Authenticate packet; a read of no bytes is not dispatched. *)
Definition response_frames (frames : list bytes) : list bytes :=
  flat_map
    (λ buf,
       match buf with
       | [] => []
       | _ =>
           if is_authenticate buf
           then [MarshalResponse
                   {| Response :=
                        response_to
                          (ParseAuthenticateMessage (ParseBaseMessage buf).1
                             (ParseBaseMessage buf).2) |}]
           else []
       end)
    frames.

End Vocabulary.

(** * Properties *)

Import protocol filter relay.

(** ** Facts about the collaborators' models and the channel *)

Lemma ReceiveIntersectsWith_spec e channels :
  entity.ReceiveIntersectsWith e channels = true
  ↔ intersects (entity.ReceiveChannels e) channels.
Proof.
  unfold entity.ReceiveIntersectsWith, intersects.
  rewrite existsb_exists. split.
  - intros (x & Hx & Hy). apply existsb_exists in Hy as (y & Hy & Heq).
    apply Z.eqb_eq in Heq as <-. exists x. by rewrite !list_elem_of_In.
  - intros (x & Hx & Hy). exists x. split; [by apply list_elem_of_In|].
    apply existsb_exists. exists x. split; [by apply list_elem_of_In|].
    apply Z.eqb_refl.
Qed.

Lemma ReceiveIntersectsWith_false e channels :
  entity.ReceiveIntersectsWith e channels = false
  ↔ ¬ intersects (entity.ReceiveChannels e) channels.
Proof.
  rewrite <- ReceiveIntersectsWith_spec.
  destruct (entity.ReceiveIntersectsWith e channels); naive_solver.
Qed.

Lemma try_send_room ch v :
  ch_closed ch = false → 0 < ch_room ch →
  ∃ ch', try_send ch v = Sent ch' ∧ ch_log ch' = ch_log ch ++ [v]
         ∧ ch_closed ch' = false.
Proof.
  intros Hc Hr. unfold try_send. rewrite Hc.
  destruct (ch_room ch); [lia|]. eauto.
Qed.

Lemma try_send_full ch v :
  ch_closed ch = false → ch_room ch = 0 → try_send ch v = WouldBlock.
Proof. intros Hc Hr. unfold try_send. by rewrite Hc, Hr. Qed.

Lemma close_open ch :
  ch_closed ch = false →
  ∃ ch', close ch = Some ch' ∧ ch_log ch' = ch_log ch ∧ ch_closed ch' = true.
Proof. intros Hc. unfold close. rewrite Hc. eauto. Qed.

Section RangeOrder.
Context `{RangeOrder}.

Lemma range_keys_NoDup (m : gmap ptr bool) : NoDup (range_keys m).
Proof. rewrite range_keys_perm. apply NoDup_fst_map_to_list. Qed.

Lemma range_keys_elem (m : gmap ptr bool) c :
  c ∈ range_keys m ↔ is_Some (m !! c).
Proof.
  rewrite range_keys_perm, list_elem_of_fmap. split.
  - intros ([k b] & -> & Hin). apply elem_of_map_to_list in Hin. eauto.
  - intros [b Hb]. exists (c, b). split; [done|]. by apply elem_of_map_to_list.
Qed.
End RangeOrder.

Lemma registered_open_lookup w c :
  registered_open w = true → is_Some (Clients w !! c) →
  ∃ cl, heap w !! c = Some cl ∧ ch_closed (Data cl) = false.
Proof.
  unfold registered_open. rewrite forallb_forall. intros Hall [b Hb].
  specialize (Hall c). destruct (heap w !! c) as [cl|].
  - exists cl. split; [done|]. apply negb_true_iff, Hall.
    apply list_elem_of_In, list_elem_of_fmap. exists (c, b).
    split; [done|]. by apply elem_of_map_to_list.
  - exfalso. enough (false = true) by done. apply Hall.
    apply list_elem_of_In, list_elem_of_fmap. exists (c, b).
    split; [done|]. by apply elem_of_map_to_list.
Qed.

(** ** The fan-out, one client at a time *)
Section Fanout.
Context `{Codec} `{Filter} `{entity.Faults}.

Lemma deliver_not_eligible m c w cl :
  heap w !! c = Some cl → eligible (store w) m cl = false →
  deliver m c w = Some w.
Proof.
  intros Hc He. unfold deliver, eligible in *. rewrite Hc. simpl.
  destruct (entity.GetEntity (store w) (ID cl)) as [e [err|]]; [done|].
  by rewrite He.
Qed.

Lemma deliver_sent m c w cl ch :
  heap w !! c = Some cl → eligible (store w) m cl = true →
  try_send (Data cl) (Marshal m) = Sent ch →
  deliver m c w = Some (set_heap (<[c := with_Data ch cl]> (heap w)) w).
Proof.
  intros Hc He Hs. unfold deliver, eligible in *. rewrite Hc. simpl.
  destruct (entity.GetEntity (store w) (ID cl)) as [e [err|]]; [done|].
  by rewrite He, Hs.
Qed.

Lemma deliver_evicts m c w cl ch :
  heap w !! c = Some cl → eligible (store w) m cl = true →
  try_send (Data cl) (Marshal m) = WouldBlock →
  close (Data cl) = Some ch →
  deliver m c w
  = Some (set_Clients (delete c (Clients w))
            (set_heap (<[c := with_Data ch cl]> (heap w)) w)).
Proof.
  intros Hc He Hs Hcl. unfold deliver, eligible in *. rewrite Hc. simpl.
  destruct (entity.GetEntity (store w) (ID cl)) as [e [err|]]; [done|].
  by rewrite He, Hs, Hcl.
Qed.

(** The body touches the client it is at and nothing else. *)
Lemma deliver_frame m c w w' :
  deliver m c w = Some w' →
  store w' = store w ∧ Router w' = Router w ∧ Bot w' = Bot w
  ∧ ∀ d, d ≠ c →
      heap w' !! d = heap w !! d ∧ Clients w' !! d = Clients w !! d.
Proof.
  unfold deliver. intros Hd.
  destruct (heap w !! c) as [cl|] eqn:Hc; simpl in Hd; [|done].
  destruct (entity.GetEntity (store w) (ID cl)) as [e [err|]];
    [by simplify_eq|].
  destruct (_ && _); [|by simplify_eq].
  destruct (try_send _ _) as [ch| |]; [| |done].
  - simplify_eq. simpl. repeat split; try done.
    by rewrite lookup_insert_ne.
  - destruct (close _) as [ch|]; simpl in Hd; [|done]. simplify_eq. simpl.
    repeat split; try done.
    + by rewrite lookup_insert_ne.
    + by rewrite lookup_delete_ne.
Qed.

(** What the body does to its client depends on that client, on its
    registration and on the store only. *)
Lemma deliver_cong m c w1 w2 w1' :
  heap w1 !! c = heap w2 !! c → Clients w1 !! c = Clients w2 !! c →
  store w1 = store w2 →
  deliver m c w1 = Some w1' →
  ∃ w2', deliver m c w2 = Some w2'
         ∧ heap w1' !! c = heap w2' !! c
         ∧ Clients w1' !! c = Clients w2' !! c.
Proof.
  unfold deliver. intros Hh Hc Hs Hd. rewrite <- Hh, <- Hs.
  destruct (heap w1 !! c) as [cl|] eqn:Hcl; simpl in *; [|done].
  destruct (entity.GetEntity (store w1) (ID cl)) as [e [err|]].
  { simplify_eq. exists w2. by rewrite Hcl. }
  destruct (_ && _).
  2:{ simplify_eq. exists w2. by rewrite Hcl. }
  destruct (try_send _ _) as [ch| |]; [| |done].
  - simplify_eq. eexists. split; [done|]. simpl.
    by rewrite !lookup_insert_eq.
  - destruct (close _) as [ch|]; simpl in *; [|done]. simplify_eq.
    eexists. split; [done|]. simpl.
    by rewrite !lookup_insert_eq, !lookup_delete_eq.
Qed.

Lemma fanout_frame m l : ∀ w w',
  fanout m l w = Some w' →
  store w' = store w ∧ Router w' = Router w ∧ Bot w' = Bot w
  ∧ ∀ d, d ∉ l →
      heap w' !! d = heap w !! d ∧ Clients w' !! d = Clients w !! d.
Proof.
  induction l as [|c l IH]; intros w w' Hf; simpl in Hf.
  - by simplify_eq.
  - destruct (deliver m c w) as [w1|] eqn:Hd; simpl in Hf; [|done].
    apply deliver_frame in Hd as (Hs & Hr & Hb & Hd).
    apply IH in Hf as (Hs' & Hr' & Hb' & Hf).
    split; [congruence|]. split; [congruence|]. split; [congruence|].
    intros d [Hne Hnl]%not_elem_of_cons.
    destruct (Hf d Hnl) as [-> ->]. by apply Hd.
Qed.

Lemma fanout_app m l1 : ∀ l2 w w',
  fanout m (l1 ++ l2) w = Some w' →
  ∃ w1, fanout m l1 w = Some w1 ∧ fanout m l2 w1 = Some w'.
Proof.
  induction l1 as [|c l1 IH]; intros l2 w w' Hf; simpl in *.
  - eauto.
  - destruct (deliver m c w) as [w1|]; simpl in *; [|done]. eauto.
Qed.

(** Every key of the enumeration is attempted once, with the effect the
    body has on it when run on its own. *)
Lemma fanout_at m l w w' c :
  NoDup l → c ∈ l → fanout m l w = Some w' →
  ∃ wc, deliver m c w = Some wc
        ∧ heap w' !! c = heap wc !! c
        ∧ Clients w' !! c = Clients wc !! c.
Proof.
  intros Hnd Hin Hf.
  apply list_elem_of_split in Hin as (l1 & l2 & ->).
  apply NoDup_app in Hnd as (_ & Hl1 & Hl2).
  apply NoDup_cons in Hl2 as [Hl2 _].
  apply fanout_app in Hf as (w1 & Hf1 & Hf2). simpl in Hf2.
  destruct (deliver m c w1) as [w2|] eqn:Hd; simpl in Hf2; [|done].
  apply fanout_frame in Hf1 as (Hs1 & _ & _ & Hf1).
  apply fanout_frame in Hf2 as (_ & _ & _ & Hf2).
  destruct (Hf1 c) as [Hh1 Hc1]; [intros ?; eapply Hl1; [done|by left]|].
  destruct (Hf2 c Hl2) as [Hh2 Hc2].
  destruct (deliver_cong m c w1 w w2) as (wc & Hwc & Hh & Hc); try done.
  exists wc. split; [done|]. split; congruence.
Qed.

(** The loop does not panic when the clients it visits are allocated with
    open mailboxes. *)
Lemma fanout_total m l : ∀ w,
  NoDup l →
  (∀ c, c ∈ l → ∃ cl, heap w !! c = Some cl ∧ ch_closed (Data cl) = false) →
  ∃ w', fanout m l w = Some w'.
Proof.
  induction l as [|c l IH]; intros w Hnd Hall; simpl; [eauto|].
  apply NoDup_cons in Hnd as [Hc Hnd].
  destruct (Hall c) as (cl & Hcl & Hopen); [by left|].
  assert (∃ w1, deliver m c w = Some w1) as [w1 Hd].
  { destruct (eligible (store w) m cl) eqn:He.
    - destruct (ch_room (Data cl)) eqn:Hr.
      + destruct (close_open _ Hopen) as (ch & Hch & _).
        eexists. eapply deliver_evicts; eauto using try_send_full.
      + destruct (try_send_room (Data cl) (Marshal m) Hopen) as (ch & Hs & _);
          [lia|].
        eexists. eapply deliver_sent; eauto.
    - eexists. by eapply deliver_not_eligible. }
  rewrite Hd. simpl. apply IH; [done|].
  intros d Hd'. apply deliver_frame in Hd as (_ & _ & _ & Hd).
  destruct (Hd d) as [-> _]; [by intros ->|]. apply Hall. by right.
Qed.

End Fanout.

(** ** The router *)
Section Router.
Context `{Codec} `{Filter} `{entity.Faults} `{RangeOrder}.

Lemma eligible_recipient w m cl :
  eligible (store w) m cl = true ↔ recipient w m cl.
Proof.
  unfold eligible, recipient.
  destruct (entity.GetEntity (store w) (ID cl)) as [e [err|]].
  - split; [done|]. by intros (e' & ? & _).
  - rewrite andb_true_iff, negb_true_iff, String.eqb_neq,
      ReceiveIntersectsWith_spec.
    split; [intros [? ?]; by exists e|].
    intros (e' & ? & ? & ?). by simplify_eq.
Qed.

Lemma eligible_own_author w m cl :
  ID cl = Author m → eligible (store w) m cl = false.
Proof.
  intros Heq. unfold eligible.
  destruct (entity.GetEntity (store w) (ID cl)) as [e [err|]]; [done|].
  apply String.eqb_eq in Heq. by rewrite Heq.
Qed.

Lemma eligible_disjoint w m cl e :
  entity.GetEntity (store w) (ID cl) = (e, None) →
  ¬ intersects (entity.ReceiveChannels e)
      (entity.DeliverableSendChannels (store w) m) →
  eligible (store w) m cl = false.
Proof.
  intros Hg Hn. unfold eligible. rewrite Hg.
  apply ReceiveIntersectsWith_false in Hn. rewrite Hn. apply andb_false_r.
Qed.

(** A message that passes the filter: the loop over the registry runs to
    its end, the message then goes to the bridge, and each registered
    client has been through the loop body once. *)
Lemma route_each m w :
  registered_open w = true → IsInFilter (Content m) = false →
  ∃ w', route m w = Some (Receiving, w')
        ∧ store w' = store w ∧ Router w' = Router w
        ∧ Bot w' = Bot w ++ [m]
        ∧ (∀ c, Clients w !! c = None →
                heap w' !! c = heap w !! c ∧ Clients w' !! c = None)
        ∧ (∀ c, is_Some (Clients w !! c) →
                ∃ wc, deliver m c w = Some wc
                      ∧ heap w' !! c = heap wc !! c
                      ∧ Clients w' !! c = Clients wc !! c).
Proof.
  intros Hwf Hpass. unfold route. rewrite Hpass.
  destruct (fanout_total m (range_keys (Clients w)) w) as [w1 Hf].
  { apply range_keys_NoDup. }
  { intros c Hc. apply registered_open_lookup; [done|].
    by apply range_keys_elem. }
  rewrite Hf. simpl. eexists. split; [done|].
  destruct (fanout_frame _ _ _ _ Hf) as (Hs & Hr & Hb & Hout). simpl.
  split; [done|]. split; [done|]. split; [by rewrite Hb|]. split.
  - intros c Hc. destruct (Hout c) as [-> ->]; [|done].
    rewrite range_keys_elem, Hc. by intros [? ?].
  - intros c Hc. eapply fanout_at; [apply range_keys_NoDup| |done].
    by apply range_keys_elem.
Qed.

Lemma route_filtered m w :
  IsInFilter (Content m) = true → route m w = Some (Returned, w).
Proof. intros Hhit. unfold route. by rewrite Hhit. Qed.

(** C2: a message whose text matches the content filter reaches no
    mailbox and is not handed to the bridge: handling it leaves every
    client, the registry and the bridge queue as they were. *)
Theorem C2_filtered_message_dropped (m : Deliverable) (w : World) :
  IsInFilter (Content m) = true →
  ∃ g w', route m w = Some (g, w')
          ∧ Bot w' = Bot w
          ∧ Clients w' = Clients w
          ∧ ∀ c, heap w' !! c = heap w !! c.
Proof.
  intros Hhit. exists Returned, w. by rewrite route_filtered.
Qed.

(** C1 (amended): for a message that passes the filter, a connection bound
    to the author's id gets no copy whatever its channels; a registered
    connection with another id, whose record the store gives, gets exactly
    one encoded copy when the record's receive channels meet the message's
    target channels and its mailbox takes the frame, no copy when the
    mailbox does not take it, and no copy when the channels are
    disjoint. *)
Theorem C1_fanout_delivery (m : Deliverable) (w : World) (c : ptr)
  (cl : RelayClient) :
  registered_open w = true → IsInFilter (Content m) = false →
  heap w !! c = Some cl →
  ∃ w', route m w = Some (Receiving, w')
    ∧ (ID cl = Author m → heap w' !! c = Some cl)
    ∧ (∀ e, is_Some (Clients w !! c) → ID cl ≠ Author m →
         entity.GetEntity (store w) (ID cl) = (e, None) →
         let targets := entity.DeliverableSendChannels (store w) m in
         (intersects (entity.ReceiveChannels e) targets →
          0 < ch_room (Data cl) →
          ∃ cl', heap w' !! c = Some cl'
                 ∧ ch_log (Data cl') = ch_log (Data cl) ++ [Marshal m])
         ∧ (intersects (entity.ReceiveChannels e) targets →
            ch_room (Data cl) = 0 →
            ∃ cl', heap w' !! c = Some cl'
                   ∧ ch_log (Data cl') = ch_log (Data cl))
         ∧ (¬ intersects (entity.ReceiveChannels e) targets →
            heap w' !! c = Some cl)).
Proof.
  intros Hwf Hpass Hcl.
  destruct (route_each m w Hwf Hpass) as (w' & Hr & _ & _ & _ & Hout & Hin).
  exists w'. split; [done|]. split.
  - intros Hown. destruct (Clients w !! c) as [b|] eqn:Hreg.
    + destruct (Hin c) as (wc & Hd & -> & _); [by rewrite Hreg|].
      rewrite (deliver_not_eligible m c w cl) in Hd;
        [|done|by apply eligible_own_author]. by simplify_eq.
    + destruct (Hout c Hreg) as [-> _]. done.
  - intros e Hreg Hne Hget targets.
    destruct (Hin c Hreg) as (wc & Hd & -> & _).
    destruct (registered_open_lookup w c Hwf Hreg) as (cl0 & Hcl0 & Hopen).
    assert (cl0 = cl) as -> by congruence.
    split; [|split].
    + intros Hint Hroom.
      destruct (try_send_room (Data cl) (Marshal m) Hopen Hroom)
        as (ch & Hs & Hlog & _).
      rewrite (deliver_sent m c w cl ch) in Hd; [|done| |done].
      2:{ apply eligible_recipient. by exists e. }
      simplify_eq. simpl. rewrite lookup_insert_eq. eauto.
    + intros Hint Hroom.
      destruct (close_open _ Hopen) as (ch & Hch & Hlog & _).
      rewrite (deliver_evicts m c w cl ch) in Hd;
        [|done| |by apply try_send_full|done].
      2:{ apply eligible_recipient. by exists e. }
      simplify_eq. simpl. rewrite lookup_insert_eq. eauto.
    + intros Hdis.
      rewrite (deliver_not_eligible m c w cl) in Hd;
        [|done|by eapply eligible_disjoint]. by simplify_eq.
Qed.

(** C5: when the mailbox of a recipient cannot take the frame, that
    connection leaves the registry and its mailbox is closed; the message
    still goes through the loop body once for every other registered
    connection, with the effect the body has on that connection alone:
    a recipient whose mailbox has room gets its copy and stays
    registered. *)
Theorem C5_full_mailbox_evicts (m : Deliverable) (w : World) (c : ptr)
  (cl : RelayClient) :
  registered_open w = true → IsInFilter (Content m) = false →
  is_Some (Clients w !! c) → heap w !! c = Some cl →
  recipient w m cl → ch_room (Data cl) = 0 →
  ∃ w', route m w = Some (Receiving, w')
    ∧ Clients w' !! c = None
    ∧ (∃ cl', heap w' !! c = Some cl' ∧ ch_closed (Data cl') = true
              ∧ ch_log (Data cl') = ch_log (Data cl))
    ∧ (∀ d, d ≠ c → is_Some (Clients w !! d) →
         ∃ wd, deliver m d w = Some wd
               ∧ heap w' !! d = heap wd !! d
               ∧ Clients w' !! d = Clients wd !! d)
    ∧ (∀ d dl, d ≠ c → is_Some (Clients w !! d) → heap w !! d = Some dl →
         recipient w m dl → 0 < ch_room (Data dl) →
         Clients w' !! d = Clients w !! d
         ∧ ∃ dl', heap w' !! d = Some dl'
                  ∧ ch_log (Data dl') = ch_log (Data dl) ++ [Marshal m]
                  ∧ ch_closed (Data dl') = false).
Proof.
  intros Hwf Hpass Hreg Hcl Hrec Hfull.
  destruct (route_each m w Hwf Hpass) as (w' & Hr & _ & _ & _ & _ & Hin).
  exists w'. split; [done|].
  destruct (Hin c Hreg) as (wc & Hd & Hh & Hc).
  destruct (registered_open_lookup w c Hwf Hreg) as (cl0 & Hcl0 & Hopen).
  assert (cl0 = cl) as -> by congruence.
  destruct (close_open _ Hopen) as (ch & Hch & Hlog & Hclosed).
  rewrite (deliver_evicts m c w cl ch) in Hd;
    [|done|by apply eligible_recipient|by apply try_send_full|done].
  simplify_eq. simpl in *. rewrite lookup_delete_eq in Hc.
  rewrite lookup_insert_eq in Hh.
  split; [done|]. split; [eauto|]. split.
  - intros d _ Hd. by apply Hin.
  - intros d dl Hne Hregd Hdl Hrecd Hroom.
    destruct (Hin d Hregd) as (wd & Hd & -> & ->).
    destruct (registered_open_lookup w d Hwf Hregd) as (dl0 & Hdl0 & Hopend).
    assert (dl0 = dl) as -> by congruence.
    destruct (try_send_room (Data dl) (Marshal m) Hopend Hroom)
      as (chd & Hs & Hlogd & Hcd).
    rewrite (deliver_sent m d w dl chd) in Hd;
      [|done|by apply eligible_recipient|done].
    simplify_eq. simpl. rewrite lookup_insert_eq. eauto.
Qed.

End Router.

(** ** Packet dispatch and the authenticator *)

Lemma length_eqb_0 (s : string) : (String.length s =? 0)%nat = true ↔ s = "".
Proof.
  rewrite Nat.eqb_eq. destruct s; simpl; split; intros; done.
Qed.

Lemma Authenticated_nonempty cl : Authenticated cl = true ↔ ID cl ≠ "".
Proof.
  unfold Authenticated. rewrite negb_true_iff, <- not_true_iff_false.
  by rewrite length_eqb_0.
Qed.

Lemma keeps_refl w : keeps w w.
Proof. by intros d Hd. Qed.

Lemma keeps_trans w1 w2 w3 : keeps w1 w2 → keeps w2 w3 → keeps w1 w3.
Proof.
  intros H12 H23 d Hd. destruct (H23 d Hd) as [Hd2 ->].
  destruct (H12 d Hd2) as [Hd1 ->]. done.
Qed.

Lemma registered_open_intro w :
  (∀ d, is_Some (Clients w !! d) →
        ∃ dl, heap w !! d = Some dl ∧ ch_closed (Data dl) = false) →
  registered_open w = true.
Proof.
  intros Hall. unfold registered_open. apply forallb_forall. intros d Hd.
  apply list_elem_of_In, list_elem_of_fmap in Hd as ([k b] & -> & Hd).
  apply elem_of_map_to_list in Hd. simpl.
  destruct (Hall k) as (dl & -> & ->); [by exists b|done].
Qed.

Lemma keeps_registered_open w w' :
  keeps w w' → registered_open w = true → registered_open w' = true.
Proof.
  intros Hk Hwf. apply registered_open_intro. intros d Hd.
  destruct (Hk d Hd) as [Hd0 Heq].
  destruct (registered_open_lookup w d Hwf Hd0) as (dl & Hdl & Hopen).
  rewrite Hdl in Heq.
  destruct (heap w' !! d) as [dl'|]; simpl in Heq; [|done].
  injection Heq as Heq. exists dl'. split; [done|]. by rewrite Heq.
Qed.

(** A write to the heap at [c] that leaves [Data] as it was. *)
Lemma keeps_set_heap w c cl cl' :
  heap w !! c = Some cl → Data cl' = Data cl →
  keeps w (set_heap (<[c := cl']> (heap w)) w).
Proof.
  intros Hc HD d Hd. split; [done|]. simpl.
  destruct (decide (d = c)) as [->|Hne].
  - rewrite lookup_insert_eq, Hc. simpl. by rewrite HD.
  - by rewrite lookup_insert_ne.
Qed.

Section Dispatch.
Context `{Codec} `{Filter} `{entity.Faults}.

Lemma Socket_Write_eq c frame w cl :
  heap w !! c = Some cl →
  Socket_Write c frame w
  = Some (set_heap (<[c := with_Socket
            {| sock_out := sock_out (Socket cl) ++ [frame];
               sock_closed := sock_closed (Socket cl) |} cl]> (heap w)) w).
Proof. intros Hc. unfold Socket_Write. by rewrite Hc. Qed.

Lemma Socket_Close_eq c w cl :
  heap w !! c = Some cl →
  Socket_Close c w
  = Some (set_heap (<[c := with_Socket
            {| sock_out := sock_out (Socket cl); sock_closed := true |} cl]>
            (heap w)) w).
Proof. intros Hc. unfold Socket_Close. by rewrite Hc. Qed.

Lemma RemoveClient_ok c w cl :
  registered_open w = true → heap w !! c = Some cl →
  ∃ w' cl', RemoveClient c w = Some w' ∧ keeps w w'
            ∧ Clients w' !! c = None
            ∧ heap w' !! c = Some cl'
            ∧ ID cl' = ID cl ∧ Hostname cl' = Hostname cl
            ∧ store w' = store w ∧ Router w' = Router w ∧ Bot w' = Bot w.
Proof.
  intros Hwf Hc. unfold RemoveClient.
  destruct (Clients w !! c) as [b|] eqn:Hreg.
  - destruct (registered_open_lookup w c Hwf) as (cl0 & Hcl0 & Hopen);
      [by rewrite Hreg|].
    assert (cl0 = cl) as -> by congruence.
    destruct (close_open _ Hopen) as (ch & Hch & _).
    rewrite Hc. simpl. rewrite Hch. simpl.
    eexists _, _. split; [done|]. simpl. rewrite lookup_insert_eq.
    rewrite lookup_delete_eq. split_and!; try done.
    intros d Hd. simpl in *.
    destruct (decide (d = c)) as [->|Hne].
    + rewrite lookup_delete_eq in Hd. by destruct Hd.
    + rewrite lookup_delete_ne in Hd by done.
      by rewrite lookup_insert_ne.
  - exists w, cl. split_and!; try done.
Qed.

(** The authenticator: it does not panic on an allocated client, touches
    no other client and no mailbox, and either binds the connection to the
    packet's token and hostname or, when the record was not found and
    could not be created, leaves the world as it was. *)
Lemma AuthenticateClient_ok c p w cl :
  heap w !! c = Some cl →
  ∃ w', AuthenticateClient c p w = Some w'
    ∧ Clients w' = Clients w ∧ Router w' = Router w ∧ Bot w' = Bot w
    ∧ (∀ d, d ≠ c → heap w' !! d = heap w !! d)
    ∧ (heap w' !! c = Some (with_binding (Token p) (AuthHostname p) cl)
       ∨ (w' = w
          ∧ (entity.GetEntity (store w) (Token p)).2 = Some entity.ErrNoRows)).
Proof.
  intros Hc.
  assert (∀ tEntity (w0 : World), heap w0 = heap w →
            Clients w0 = Clients w → Router w0 = Router w → Bot w0 = Bot w →
    ∃ w', bind_client c tEntity p w0 = Some w'
      ∧ Clients w' = Clients w ∧ Router w' = Router w ∧ Bot w' = Bot w
      ∧ (∀ d, d ≠ c → heap w' !! d = heap w !! d)
      ∧ heap w' !! c = Some (with_binding (Token p) (AuthHostname p) cl))
    as Hbind.
  { intros tEntity w0 Hh Hcs Hr Hb. unfold bind_client. simpl.
    rewrite Hh, Hc. simpl.
    eexists. split; [done|]. simpl. rewrite lookup_insert_eq.
    split_and!; try done. intros d Hne. by rewrite lookup_insert_ne. }
  unfold AuthenticateClient.
  destruct (entity.GetEntity (store w) (Token p)) as [e err] eqn:Hget.
  destruct err as [[]|].
  - unfold entity.Insert.
    destruct (entity.insert_fault _) eqn:Hins.
    + exists w. destruct w. simpl. split_and!; try done. by right.
    + edestruct Hbind as (w' & Hw' & ? & ? & ? & ? & ?);
        [| | | |exists w'; split; [exact Hw'|]]; try done.
      split_and!; try done. by left.
  - destruct (Hbind e w) as (w' & Hw' & ? & ? & ? & ? & ?); try done.
    exists w'. split_and!; try done. by left.
  - destruct (Hbind e w) as (w' & Hw' & ? & ? & ? & ? & ?); try done.
    exists w'. split_and!; try done. by left.
Qed.

Lemma AuthenticateClient_keeps c p w cl w' :
  heap w !! c = Some cl → AuthenticateClient c p w = Some w' → keeps w w'.
Proof.
  intros Hc Ha.
  destruct (AuthenticateClient_ok c p w cl Hc)
    as (w1 & Ha1 & Hcs & _ & _ & Hoth & Hat).
  assert (w1 = w') as -> by congruence.
  intros d Hd. rewrite Hcs in Hd. split; [done|].
  destruct (decide (d = c)) as [->|Hne]; [|by rewrite Hoth].
  destruct Hat as [->|[-> _]]; [|done]. by rewrite Hc.
Qed.

(** The three ways through [HandlePacket]. *)
Lemma HandlePacket_denied c buf w base reader :
  ParseBaseMessage buf = (base, reader) →
  Type_ base = MessageAuthenticate →
  Token (ParseAuthenticateMessage base reader) = ""
  ∨ AuthHostname (ParseAuthenticateMessage base reader) = "" →
  HandlePacket c buf w
  = Socket_Write c (MarshalResponse {| Response := AuthenticateDenied |}) w.
Proof.
  intros Hp Ht Hempty. unfold HandlePacket. rewrite Hp, Ht.
  destruct Hempty as [-> | ->]; simpl; [done|].
  by rewrite orb_true_r.
Qed.

Lemma HandlePacket_authenticate c buf w base reader :
  ParseBaseMessage buf = (base, reader) →
  Type_ base = MessageAuthenticate →
  Token (ParseAuthenticateMessage base reader) ≠ "" →
  AuthHostname (ParseAuthenticateMessage base reader) ≠ "" →
  HandlePacket c buf w
  = w1 ← AuthenticateClient c (ParseAuthenticateMessage base reader) w;
    Socket_Write c (MarshalResponse {| Response := AuthenticateSuccess |}) w1.
Proof.
  intros Hp Ht Htok Hhost. unfold HandlePacket. rewrite Hp, Ht.
  rewrite <- length_eqb_0, not_true_iff_false in Htok, Hhost.
  by rewrite Htok, Hhost.
Qed.

Lemma HandlePacket_other c buf w base reader cl :
  ParseBaseMessage buf = (base, reader) →
  Type_ base ≠ MessageAuthenticate →
  heap w !! c = Some cl →
  HandlePacket c buf w
  = if negb (Authenticated cl) then Some w
    else
      let base := with_sender (ID cl) (Hostname cl) base in
      match Type_ base with
      | MessageChat =>
          Some (set_Router (Router w ++ [ParseChatMessage base reader]) w)
      | MessageEvent =>
          Some (set_Router (Router w ++ [ParseEventMessage base reader]) w)
      | _ => w1 ← RemoveClient c w; Socket_Close c w1
      end.
Proof.
  intros Hp Ht Hc. unfold HandlePacket. rewrite Hp.
  destruct (Type_ base) eqn:Hty; [done|..]; rewrite Hc; simpl;
    destruct (negb (Authenticated cl)); try done.
Qed.

End Dispatch.

Section Store.
Context `{entity.Faults}.

(** The display-name update keeps every record and its channels. *)
Lemma SetDisplayName_frame e name (st : gmap string entity.Row) k r :
  st !! k = Some r →
  ∃ r', entity.SetDisplayName e name st !! k = Some r'
        ∧ entity.receive_channels r' = entity.receive_channels r
        ∧ entity.send_channels r' = entity.send_channels r.
Proof.
  intros Hk. unfold entity.SetDisplayName.
  destruct (entity.set_fault _ _); [eauto|].
  rewrite lookup_alter. case_decide; subst; rewrite Hk; simpl; eauto.
Qed.

Lemma SetDisplayName_other e name (st : gmap string entity.Row) k :
  k ≠ entity.ID e → entity.SetDisplayName e name st !! k = st !! k.
Proof.
  intros Hne. unfold entity.SetDisplayName.
  destruct (entity.set_fault _ _); [done|]. by rewrite lookup_alter_ne.
Qed.

Lemma SetDisplayName_hit e name (st : gmap string entity.Row) r :
  entity.set_fault (entity.ID e) name = false →
  st !! entity.ID e = Some r →
  entity.SetDisplayName e name st !! entity.ID e
  = Some (entity.with_display_name name r).
Proof.
  intros Hok Hk. unfold entity.SetDisplayName. rewrite Hok.
  by rewrite lookup_alter_eq, Hk.
Qed.

Lemma GetEntity_not_found (st : gmap string entity.Row) id :
  (entity.GetEntity st id).2 = Some entity.ErrNoRows →
  entity.get_fault id = None ∧ st !! id = None.
Proof.
  unfold entity.GetEntity. destruct (entity.get_fault id); [done|].
  by destruct (st !! id).
Qed.

End Store.

Section Handshake.
Context `{Codec} `{Filter} `{entity.Faults}.

Lemma bind_client_store c e p w w' :
  bind_client c e p w = Some w' →
  store w' = entity.SetDisplayName e (AuthHostname p) (store w).
Proof.
  unfold bind_client. simpl. intros Hb.
  destruct (heap w !! c); simpl in Hb; [|done]. by simplify_eq.
Qed.

Lemma AuthenticateClient_creation_fails c p w :
  (entity.GetEntity (store w) (Token p)).2 = Some entity.ErrNoRows →
  entity.insert_fault (fresh_entity p) = true →
  AuthenticateClient c p w = Some w.
Proof.
  intros Hnf Hins. unfold AuthenticateClient.
  destruct (entity.GetEntity (store w) (Token p)) as [e err].
  simpl in Hnf. subst err. fold (fresh_entity p). unfold entity.Insert.
  rewrite Hins. by destruct w.
Qed.

(** C4: a chat or event frame on an authenticated connection is submitted
    to the router with the author id and hostname of the connection's
    binding; a second frame of the same type with the same bytes after the
    header, whatever sender id and hostname its header holds, is handled
    to the same world, routed message included. *)
Theorem C4_author_from_binding (c : ptr) (cl : RelayClient) (buf : bytes)
  (w : World) (base : BaseMessage) (reader : bytes) :
  heap w !! c = Some cl → Authenticated cl = true →
  ParseBaseMessage buf = (base, reader) →
  Type_ base = MessageChat ∨ Type_ base = MessageEvent →
  (∃ msg, HandlePacket c buf w = Some (set_Router (Router w ++ [msg]) w)
          ∧ Author msg = ID cl
          ∧ protocol.Hostname (Base msg) = Hostname cl)
  ∧ (∀ buf2 base2,
       ParseBaseMessage buf2 = (base2, reader) → Type_ base2 = Type_ base →
       HandlePacket c buf2 w = HandlePacket c buf w).
Proof.
  intros Hc Hauth Hp Hty.
  assert (Type_ base ≠ MessageAuthenticate) as Hna
    by (destruct Hty as [Ht|Ht]; rewrite Ht; discriminate).
  split.
  - rewrite (HandlePacket_other c buf w base reader cl Hp Hna Hc).
    rewrite Hauth. simpl. destruct Hty as [-> | ->]; eauto.
  - intros buf2 base2 Hp2 Hty2.
    rewrite (HandlePacket_other c buf w base reader cl Hp Hna Hc).
    rewrite <- Hty2 in Hna.
    rewrite (HandlePacket_other c buf2 w base2 reader cl Hp2 Hna Hc).
    unfold with_sender. by rewrite Hty2.
Qed.

(** C7: an Authenticate frame with an empty token or an empty hostname is
    answered with the Denied response; the store, the registry, the
    connection's binding, its mailbox and the state of its socket are as
    before. *)
Theorem C7_empty_credentials_denied (c : ptr) (cl : RelayClient)
  (buf : bytes) (w : World) (base : BaseMessage) (reader : bytes) :
  heap w !! c = Some cl →
  ParseBaseMessage buf = (base, reader) →
  Type_ base = MessageAuthenticate →
  Token (ParseAuthenticateMessage base reader) = ""
  ∨ AuthHostname (ParseAuthenticateMessage base reader) = "" →
  ∃ w' cl', HandlePacket c buf w = Some w'
    ∧ store w' = store w ∧ Clients w' = Clients w
    ∧ heap w' !! c = Some cl'
    ∧ sock_out (Socket cl')
      = sock_out (Socket cl)
        ++ [MarshalResponse {| Response := AuthenticateDenied |}]
    ∧ sock_closed (Socket cl') = sock_closed (Socket cl)
    ∧ ID cl' = ID cl ∧ Hostname cl' = Hostname cl ∧ Data cl' = Data cl.
Proof.
  intros Hc Hp Hty Hempty.
  rewrite (HandlePacket_denied c buf w base reader Hp Hty Hempty).
  rewrite (Socket_Write_eq c _ w cl Hc).
  eexists _, _. split; [done|]. simpl. rewrite lookup_insert_eq.
  by split_and!.
Qed.

(** C8: authenticating with a token the store does not know creates the
    record of that token; when the creation fails the call returns with
    the world as it was: the connection is not bound and no display name
    is written. *)
Theorem C8_unknown_token_creates_record (c : ptr) (cl : RelayClient)
  (p : AuthenticateMessage) (w : World) :
  heap w !! c = Some cl →
  (entity.GetEntity (store w) (Token p)).2 = Some entity.ErrNoRows →
  store w !! Token p = None
  ∧ (entity.insert_fault (fresh_entity p) = false →
     ∃ w' r, AuthenticateClient c p w = Some w'
       ∧ store w' !! Token p = Some r
       ∧ entity.receive_channels r = [] ∧ entity.send_channels r = []
       ∧ (∀ k, k ≠ Token p → store w' !! k = store w !! k)
       ∧ heap w' !! c = Some (with_binding (Token p) (AuthHostname p) cl))
  ∧ (entity.insert_fault (fresh_entity p) = true →
     AuthenticateClient c p w = Some w).
Proof.
  intros Hc Hnf. destruct (GetEntity_not_found _ _ Hnf) as [Hgf Hnone].
  split; [done|].
  unfold AuthenticateClient.
  destruct (entity.GetEntity (store w) (Token p)) as [e err].
  simpl in Hnf. subst err. fold (fresh_entity p). unfold entity.Insert.
  split; intros Hins; rewrite Hins.
  - destruct (bind_client c (fresh_entity p) p
                (set_store (<[entity.ID (fresh_entity p) :=
                                entity.to_row (fresh_entity p)]> (store w)) w))
      as [w'|] eqn:Hb.
    2:{ unfold bind_client in Hb. simpl in Hb. by rewrite Hc in Hb. }
    pose proof (bind_client_store _ _ _ _ _ Hb) as Hst. simpl in Hst.
    destruct (SetDisplayName_frame (fresh_entity p) (AuthHostname p)
                (<[Token p := entity.to_row (fresh_entity p)]> (store w))
                (Token p) (entity.to_row (fresh_entity p)))
      as (r & Hr & Hrc & Hsc); [by rewrite lookup_insert_eq|].
    exists w', r. rewrite Hst. split_and!; try done.
    + intros k Hne. rewrite SetDisplayName_other by done.
      by rewrite lookup_insert_ne.
    + unfold bind_client in Hb. simpl in Hb. rewrite Hc in Hb.
      simpl in Hb. simplify_eq. simpl. by rewrite lookup_insert_eq.
  - by destruct w.
Qed.

(** C9: authenticating with a token whose record is in the store keeps
    that record, and every other record, with its receive and send
    channels; the record's display name is the only field written, and it
    is the hostname of the packet once the store has taken the update. *)
Theorem C9_reauthentication_keeps_channels (c : ptr) (cl : RelayClient)
  (p : AuthenticateMessage) (w : World) (r : entity.Row) :
  heap w !! c = Some cl → store w !! Token p = Some r →
  ∃ w' r', AuthenticateClient c p w = Some w'
    ∧ store w' !! Token p = Some r'
    ∧ entity.receive_channels r' = entity.receive_channels r
    ∧ entity.send_channels r' = entity.send_channels r
    ∧ (entity.get_fault (Token p) = None →
       entity.set_fault (Token p) (AuthHostname p) = false →
       entity.display_name r' = AuthHostname p)
    ∧ (∀ k r0, store w !! k = Some r0 →
         ∃ r0', store w' !! k = Some r0'
                ∧ entity.receive_channels r0' = entity.receive_channels r0
                ∧ entity.send_channels r0' = entity.send_channels r0)
    ∧ (∀ k, store w !! k = None → store w' !! k = None).
Proof.
  intros Hc Hr.
  destruct (AuthenticateClient_ok c p w cl Hc) as (w' & Ha & _).
  assert (∃ e, store w' = entity.SetDisplayName e (AuthHostname p) (store w)
               ∧ (entity.get_fault (Token p) = None →
                  e = entity.of_row (Token p) r)) as (e & Hst & He).
  { unfold AuthenticateClient, entity.GetEntity in Ha. rewrite Hr in Ha.
    destruct (entity.get_fault (Token p)) as [be|].
    - exists be. split; [by eapply bind_client_store|done].
    - eexists. split; [by eapply bind_client_store|done]. }
  destruct (SetDisplayName_frame e (AuthHostname p) (store w) (Token p) r Hr)
    as (r' & Hr' & Hrc & Hsc).
  exists w', r'. rewrite Hst. split_and!; try done.
  - intros Hgf Hsf. specialize (He Hgf). subst e. simpl in *.
    rewrite (SetDisplayName_hit (entity.of_row (Token p) r) _ _ r) in Hr';
      [|done..].
    by simplify_eq.
  - intros k r0 Hk. by apply SetDisplayName_frame.
  - intros k Hk. unfold entity.SetDisplayName.
    destruct (entity.set_fault _ _); [done|].
    rewrite lookup_alter. case_decide; subst; by rewrite Hk.
Qed.

(** C10: an Authenticate frame with a token and a hostname, both
    non-empty, is answered with the Success response; also when the record
    was not found and its creation failed, in which case the binding and
    the store are as before. *)
Theorem C10_success_response_always (c : ptr) (cl : RelayClient)
  (buf : bytes) (w : World) (base : BaseMessage) (reader : bytes) :
  heap w !! c = Some cl →
  ParseBaseMessage buf = (base, reader) →
  Type_ base = MessageAuthenticate →
  Token (ParseAuthenticateMessage base reader) ≠ "" →
  AuthHostname (ParseAuthenticateMessage base reader) ≠ "" →
  ∃ w' cl', HandlePacket c buf w = Some w'
    ∧ heap w' !! c = Some cl'
    ∧ sock_out (Socket cl')
      = sock_out (Socket cl)
        ++ [MarshalResponse {| Response := AuthenticateSuccess |}]
    ∧ ((entity.GetEntity (store w)
          (Token (ParseAuthenticateMessage base reader))).2
       = Some entity.ErrNoRows →
       entity.insert_fault
         (fresh_entity (ParseAuthenticateMessage base reader)) = true →
       ID cl' = ID cl ∧ Hostname cl' = Hostname cl ∧ store w' = store w).
Proof.
  intros Hc Hp Hty Htok Hhost.
  rewrite (HandlePacket_authenticate c buf w base reader Hp Hty Htok Hhost).
  set (p := ParseAuthenticateMessage base reader) in *.
  destruct (AuthenticateClient_ok c p w cl Hc)
    as (w1 & Ha & _ & _ & _ & _ & Hat).
  rewrite Ha. simpl.
  assert (∃ cl1, heap w1 !! c = Some cl1 ∧ Socket cl1 = Socket cl)
    as (cl1 & Hc1 & Hsock).
  { destruct Hat as [->|[-> _]]; eauto. }
  rewrite (Socket_Write_eq c _ w1 cl1 Hc1).
  eexists _, _. split; [done|]. simpl. rewrite lookup_insert_eq.
  split; [done|]. simpl. rewrite Hsock. split; [done|].
  intros Hnf Hins.
  rewrite (AuthenticateClient_creation_fails c p w Hnf Hins) in Ha.
  simplify_eq. by split_and!.
Qed.

End Handshake.

(** ** The binding of a connection over its lifetime *)
Section Binding.
Context `{Codec} `{Filter} `{entity.Faults}.

(** One frame: the dispatch does not panic, keeps the registry
    well-formed, never empties the bound id, and changes the binding only
    on an Authenticate frame, to the token and hostname of that frame. *)
Lemma HandlePacket_step c buf w cl :
  registered_open w = true → heap w !! c = Some cl →
  ∃ w' cl', HandlePacket c buf w = Some w'
    ∧ registered_open w' = true
    ∧ heap w' !! c = Some cl'
    ∧ (Authenticated cl = true → Authenticated cl' = true)
    ∧ ((ID cl' = ID cl ∧ Hostname cl' = Hostname cl)
       ∨ (is_authenticate buf = true
          ∧ let p := ParseAuthenticateMessage (ParseBaseMessage buf).1
                       (ParseBaseMessage buf).2 in
            Token p ≠ "" ∧ AuthHostname p ≠ ""
            ∧ ID cl' = Token p ∧ Hostname cl' = AuthHostname p)).
Proof.
  intros Hwf Hc. unfold is_authenticate.
  destruct (ParseBaseMessage buf) as [base reader] eqn:Hp. simpl.
  destruct (decide (Type_ base = MessageAuthenticate)) as [Hty|Hty].
  - set (p := ParseAuthenticateMessage base reader).
    destruct (decide (Token p = "")) as [Htok|Htok];
      [|destruct (decide (AuthHostname p = "")) as [Hhost|Hhost]].
    1,2: rewrite (HandlePacket_denied c buf w base reader Hp Hty) by eauto;
      rewrite (Socket_Write_eq c _ w cl Hc);
      eexists _, _; split; [done|]; split;
      [by eapply keeps_registered_open; [eapply keeps_set_heap|]|];
      simpl; rewrite lookup_insert_eq; split; [done|]; split; [done|];
      by left.
    rewrite (HandlePacket_authenticate c buf w base reader Hp Hty Htok Hhost).
    fold p.
    destruct (AuthenticateClient_ok c p w cl Hc)
      as (w1 & Ha & _ & _ & _ & _ & Hat).
    rewrite Ha. simpl.
    pose proof (AuthenticateClient_keeps c p w cl w1 Hc Ha) as Hk1.
    assert (∃ cl1, heap w1 !! c = Some cl1
              ∧ (cl1 = cl ∨ cl1 = with_binding (Token p) (AuthHostname p) cl))
      as (cl1 & Hc1 & Hcl1).
    { destruct Hat as [->|[-> _]]; eauto. }
    rewrite (Socket_Write_eq c _ w1 cl1 Hc1).
    eexists _, _. split; [done|]. split.
    { eapply keeps_registered_open; [|done].
      eapply keeps_trans; [done|]. by eapply keeps_set_heap. }
    simpl. rewrite lookup_insert_eq. split; [done|].
    destruct Hcl1 as [-> | ->]; simpl.
    + split; [done|]. by left.
    + split; [intros _; by apply Authenticated_nonempty|].
      right. rewrite bool_decide_eq_true. by split_and!.
  - rewrite (HandlePacket_other c buf w base reader cl Hp Hty Hc).
    destruct (negb (Authenticated cl)).
    { exists w, cl. split_and!; try done. by left. }
    simpl.
    assert (∃ w' cl', (w1 ← RemoveClient c w; Socket_Close c w1) = Some w'
              ∧ registered_open w' = true ∧ heap w' !! c = Some cl'
              ∧ ID cl' = ID cl ∧ Hostname cl' = Hostname cl)
      as (wr & clr & Hrm & Hwfr & Hcr & Hid & Hhn).
    { destruct (RemoveClient_ok c w cl Hwf Hc)
        as (w1 & cl1 & -> & Hk & _ & Hc1 & ? & ? & _).
      simpl. rewrite (Socket_Close_eq c w1 cl1 Hc1).
      eexists _, _. split; [done|]. split.
      { eapply keeps_registered_open; [|done].
        eapply keeps_trans; [done|]. by eapply keeps_set_heap. }
      simpl. by rewrite lookup_insert_eq. }
    destruct (Type_ base) eqn:Hb; [done|..].
    3:{ exists wr, clr. split_and!; try done; [|by left].
        rewrite !Authenticated_nonempty. by rewrite Hid. }
    all: eexists _, cl; split; [done|]; split_and!; try done; by left.
Qed.

(** C6 (amended): an authenticated connection stays authenticated through
    every frame its receive loop handles and through the loop's exit on a
    read error; when none of the frames is an Authenticate frame its bound
    id and hostname are those it started with. (An Authenticate frame
    binds the connection to the token and hostname of that frame.) *)
Theorem C6_binding_after_authentication (c : ptr)
  (reads : list (option bytes)) :
  ∀ (w : World) (cl : RelayClient),
  registered_open w = true → heap w !! c = Some cl →
  Authenticated cl = true →
  ∃ w' cl', ListenClientReceive c reads w = Some w'
    ∧ heap w' !! c = Some cl'
    ∧ Authenticated cl' = true
    ∧ (Forall (λ r, ∀ buf, r = Some buf → is_authenticate buf = false) reads →
       ID cl' = ID cl ∧ Hostname cl' = Hostname cl).
Proof.
  induction reads as [|[buf|] reads IH]; intros w cl Hwf Hc Hauth; simpl.
  - exists w, cl. by split_and!.
  - assert (∀ w1 cl1, registered_open w1 = true → heap w1 !! c = Some cl1 →
              Authenticated cl1 = true →
              ((ID cl1 = ID cl ∧ Hostname cl1 = Hostname cl)
               ∨ is_authenticate buf = true) →
      ∃ w' cl', ListenClientReceive c reads w1 = Some w'
        ∧ heap w' !! c = Some cl' ∧ Authenticated cl' = true
        ∧ (Forall (λ r, ∀ buf, r = Some buf → is_authenticate buf = false)
             (Some buf :: reads) →
           ID cl' = ID cl ∧ Hostname cl' = Hostname cl)) as Hrest.
    { intros w1 cl1 Hwf1 Hc1 Hauth1 Hsame.
      destruct (IH w1 cl1 Hwf1 Hc1 Hauth1) as (w' & cl' & Hl & Hc' & Ha' & Hb').
      exists w', cl'. split_and!; try done.
      intros [Hhd Htl]%Forall_cons.
      destruct Hsame as [[<- <-]|Hisauth]; [by apply Hb'|].
      rewrite (Hhd buf eq_refl) in Hisauth. done. }
    destruct buf as [|b buf']; [apply (Hrest w cl); try done; by left|].
    destruct (HandlePacket_step c (b :: buf') w cl Hwf Hc)
      as (w1 & cl1 & -> & Hwf1 & Hc1 & Ha1 & Hbind).
    simpl. apply (Hrest w1 cl1); try done; [by apply Ha1|].
    destruct Hbind as [?|[? _]]; [by left|by right].
  - destruct (RemoveClient_ok c w cl Hwf Hc)
      as (w1 & cl1 & -> & _ & _ & Hc1 & Hid & Hhn & _).
    simpl. rewrite (Socket_Close_eq c w1 cl1 Hc1).
    eexists _, _. split; [done|]. simpl. rewrite lookup_insert_eq.
    split; [done|]. split; [|by intros _].
    apply Authenticated_nonempty. simpl. rewrite Hid.
    by apply Authenticated_nonempty.
Qed.

End Binding.

(** ** [registered_open] is an invariant of the relay *)
Section Invariant.
Context `{Codec} `{Filter} `{entity.Faults} `{RangeOrder}.

Lemma NewRelay_registered_open : registered_open NewRelay = true.
Proof. apply registered_open_intro. intros d [b Hb]. by simpl in Hb. Qed.

Lemma accept_registered_open c conn w :
  registered_open w = true →
  registered_open (ProcessConnections_accept c conn w) = true.
Proof.
  intros Hwf. apply registered_open_intro. intros d Hd. simpl in *.
  destruct (decide (d = c)) as [->|Hne].
  - rewrite lookup_insert_eq. eauto.
  - rewrite lookup_insert_ne in Hd by done. rewrite lookup_insert_ne by done.
    by apply registered_open_lookup.
Qed.

Lemma deliver_open m d w wd dl :
  heap w !! d = Some dl → ch_closed (Data dl) = false →
  deliver m d w = Some wd → is_Some (Clients wd !! d) →
  ∃ dl', heap wd !! d = Some dl' ∧ ch_closed (Data dl') = false.
Proof.
  intros Hd Hopen Hdel Hreg. unfold deliver in Hdel. rewrite Hd in Hdel.
  simpl in Hdel.
  destruct (entity.GetEntity (store w) (ID dl)) as [e [err|]];
    [simplify_eq; eauto|].
  destruct (_ && _); [|simplify_eq; eauto].
  unfold try_send in Hdel. rewrite Hopen in Hdel.
  destruct (ch_room (Data dl)).
  - destruct (close (Data dl)); simpl in Hdel; [|done]. simplify_eq.
    simpl in Hreg. rewrite lookup_delete_eq in Hreg. by destruct Hreg.
  - simplify_eq. simpl. rewrite lookup_insert_eq. eauto.
Qed.

Lemma route_registered_open m w g w' :
  registered_open w = true → route m w = Some (g, w') →
  registered_open w' = true.
Proof.
  intros Hwf Hr. destruct (IsInFilter (Content m)) eqn:Hflt.
  - rewrite route_filtered in Hr by done. by simplify_eq.
  - destruct (route_each m w Hwf Hflt) as (w1 & Hr1 & _ & _ & _ & Hout & Hin).
    assert (w1 = w') as -> by congruence.
    apply registered_open_intro. intros d Hd.
    destruct (Clients w !! d) as [b|] eqn:Hreg.
    + destruct (Hin d) as (wd & Hdel & Hh & Hc); [by rewrite Hreg|].
      destruct (registered_open_lookup w d Hwf) as (dl & Hdl & Hopen);
        [by rewrite Hreg|].
      rewrite Hh. eapply deliver_open; try done. by rewrite <- Hc.
    + destruct (Hout d Hreg) as [_ Hnone]. rewrite Hnone in Hd.
      by destruct Hd.
Qed.

End Invariant.

(** ** The routing loop over a queue of submissions *)
Section Loop.
Context `{Codec} `{Filter} `{entity.Faults} `{RangeOrder}.

(** Messages that pass the filter are handled one after the other, in the
    order of submission, each handed to the bridge after its fan-out;
    evictions on the way do not stop the loop. *)
Lemma routing_passes msgs : ∀ w,
  registered_open w = true →
  Forall (λ m, IsInFilter (Content m) = false) msgs →
  ∃ w', routing msgs w = Some (Receiving, w')
        ∧ Router w' = [] ∧ Bot w' = Bot w ++ msgs
        ∧ registered_open w' = true.
Proof.
  induction msgs as [|m msgs IH]; intros w Hwf Hall; simpl.
  - eexists. split; [done|]. simpl. by rewrite app_nil_r.
  - apply Forall_cons in Hall as [Hm Hall].
    destruct (route_each m (set_Router msgs w)) as (w1 & Hr & _ & _ & Hb & _);
      [done..|].
    rewrite Hr. simpl.
    destruct (IH w1) as (w' & Hl & Hq & Hb' & Hwf'); [|done|].
    { by apply (route_registered_open m (set_Router msgs w) Receiving w1). }
    exists w'. split_and!; try done.
    rewrite Hb', Hb. simpl. by rewrite <- app_assoc.
Qed.

(** A filter hit ends the loop with the rest of the queue unreceived. *)
Lemma routing_filter_hit m rest w :
  IsInFilter (Content m) = true →
  routing (m :: rest) w = Some (Returned, set_Router rest w).
Proof. intros Hhit. simpl. by rewrite route_filtered. Qed.

End Loop.

(** ** The model on concrete worlds *)
Section Examples.
Import demo.
#[local] Existing Instances codec no_spam key_order.

(** C1, as stated, fails: Z is registered under an id other than the
    author's, the receive channels of its record meet the target channels
    of the message, and the message passes the filter; its mailbox cannot
    take the frame, so it holds no copy after the fan-out. *)
Lemma C1_full_mailbox_gets_no_copy :
  let _ := sound_store in
  let w := w0 [] in
  let z := busy "tok3" "srvC" in
  registered_open w = true
  ∧ IsInFilter (Content hello) = false
  ∧ Clients w !! 3%positive = Some true
  ∧ heap w !! 3%positive = Some z
  ∧ ID z ≠ Author hello
  ∧ entity.GetEntity (store w) (ID z)
    = (entity.of_row "tok3" (row [1%Z; 2%Z] []), None)
  ∧ intersects [1%Z; 2%Z] (entity.DeliverableSendChannels (store w) hello)
  ∧ ∃ w' z', route hello w = Some (Receiving, w')
             ∧ heap w' !! 3%positive = Some z'
             ∧ ch_log (Data z') = []
             ∧ ch_log (Data z') ≠ ch_log (Data z) ++ [Marshal hello].
Proof.
  simpl. split_and!; try (vm_compute; done).
  - exists 1%Z. split; vm_compute; by left.
  - eexists _, _. split; [vm_compute; reflexivity|].
    split; [vm_compute; reflexivity|]. split; [done|]. vm_compute. done.
Qed.

Lemma C1_fanout_delivery_witness :
  let _ := sound_store in
  ∃ w' y', route hello (w0 []) = Some (Receiving, w')
           ∧ heap w' !! 2%positive = Some y'
           ∧ ch_log (Data y') = [Marshal hello].
Proof.
  cbv zeta.
  destruct (C1_fanout_delivery (H1 := sound_store) hello (w0 []) 2%positive
              (waiting "tok2" "srvB"))
    as (w' & Hr & _ & Hrec); [vm_compute; reflexivity..|].
  destruct (Hrec (entity.of_row "tok2" (row [1%Z] [])))
    as [Hsent _]; [by eexists|vm_compute; discriminate|vm_compute; reflexivity|].
  destruct Hsent as (y' & Hy & Hlog).
  - exists 1%Z. split; vm_compute; by left.
  - vm_compute. lia.
  - exists w', y'. by split_and!.
Defined.

Lemma C2_filtered_message_dropped_witness :
  let _ := sound_store in
  ∃ g w', route spam (w0 []) = Some (g, w')
          ∧ Bot w' = Bot (w0 []) ∧ Clients w' = Clients (w0 [])
          ∧ ∀ c, heap w' !! c = heap (w0 []) !! c.
Proof.
  cbv zeta.
  refine (C2_filtered_message_dropped (H1 := sound_store) spam (w0 []) _).
  vm_compute. reflexivity.
Defined.

(** C3 fails on the code: with a filtered message ahead of it in the
    queue, [hello] is never received: the loop has returned, the bridge
    has nothing and [hello] is still waiting on [r.Router]. On its own
    [hello] is routed and handed to the bridge. *)
Lemma C3_filter_hit_ends_routing :
  let _ := sound_store in
  StartRouting (w0 [spam; hello]) = Some (Returned, w0 [hello])
  ∧ ∃ w', StartRouting (w0 [hello]) = Some (Receiving, w')
          ∧ Router w' = [] ∧ Bot w' = [hello].
Proof.
  simpl. split; [vm_compute; reflexivity|].
  eexists. split; [vm_compute; reflexivity|]. done.
Qed.

Lemma C4_author_from_binding_witness :
  let _ := sound_store in
  ∃ msg, HandlePacket 1%positive (frame x03 "evil" "fake" "hi") (w0 [])
         = Some (set_Router (Router (w0 []) ++ [msg]) (w0 []))
         ∧ Author msg = "tok1"
         ∧ protocol.Hostname (Base msg) = "srvA".
Proof.
  cbv zeta.
  refine (proj1 (C4_author_from_binding (H1 := sound_store) 1%positive
                   (waiting "tok1" "srvA") (frame x03 "evil" "fake" "hi")
                   (w0 [])
                   {| Type_ := MessageChat; SenderID := "evil";
                      protocol.Hostname := "fake" |}
                   (cstring "hi") _ _ _ _)).
  - vm_compute. reflexivity.
  - vm_compute. reflexivity.
  - vm_compute. reflexivity.
  - left. reflexivity.
Defined.

Lemma C5_full_mailbox_evicts_witness :
  let _ := sound_store in
  ∃ w' y', route hello (w0 []) = Some (Receiving, w')
           ∧ Clients w' !! 3%positive = None
           ∧ Clients w' !! 2%positive = Some true
           ∧ heap w' !! 2%positive = Some y'
           ∧ ch_log (Data y') = [Marshal hello].
Proof.
  cbv zeta.
  destruct (C5_full_mailbox_evicts (H1 := sound_store) hello (w0 [])
              3%positive (busy "tok3" "srvC"))
    as (w' & Hr & Hgone & _ & _ & Hothers).
  - vm_compute. reflexivity.
  - vm_compute. reflexivity.
  - by eexists.
  - vm_compute. reflexivity.
  - apply eligible_recipient. vm_compute. reflexivity.
  - reflexivity.
  - destruct (Hothers 2%positive (waiting "tok2" "srvB"))
      as (Hreg & y' & Hy & Hlog & _).
    + discriminate.
    + by eexists.
    + vm_compute. reflexivity.
    + apply eligible_recipient. vm_compute. reflexivity.
    + vm_compute. lia.
    + exists w', y'. by split_and!.
Defined.

(** C6, as stated, fails: X is bound to tok1; an Authenticate frame with
    the token tok9 binds it to tok9. *)
Lemma C6_second_authenticate_rebinds :
  let _ := sound_store in
  let x := waiting "tok1" "srvA" in
  heap (w0 []) !! 1%positive = Some x
  ∧ Authenticated x = true
  ∧ ∃ w' x', HandlePacket 1%positive (frame x01 "" "hostZ" "tok9") (w0 [])
             = Some w'
             ∧ heap w' !! 1%positive = Some x'
             ∧ ID x' = "tok9"
             ∧ ID x' ≠ ID x.
Proof.
  simpl. split; [vm_compute; reflexivity|]. split; [reflexivity|].
  eexists _, _. split; [vm_compute; reflexivity|].
  split; [vm_compute; reflexivity|]. split; [reflexivity|]. discriminate.
Qed.

Lemma C6_binding_after_authentication_witness :
  let _ := sound_store in
  ∃ w' x', ListenClientReceive 1%positive
             [Some (frame x03 "evil" "fake" "hi");
              Some (frame x09 "" "" ""); None] (w0 [])
           = Some w'
           ∧ heap w' !! 1%positive = Some x'
           ∧ Authenticated x' = true
           ∧ ID x' = "tok1" ∧ Hostname x' = "srvA".
Proof.
  cbv zeta.
  destruct (C6_binding_after_authentication (H1 := sound_store) 1%positive
              [Some (frame x03 "evil" "fake" "hi");
               Some (frame x09 "" "" ""); None]
              (w0 []) (waiting "tok1" "srvA"))
    as (w' & x' & Hl & Hx & Ha & Hb).
  - vm_compute. reflexivity.
  - vm_compute. reflexivity.
  - reflexivity.
  - destruct Hb as [Hid Hhn].
    + apply Forall_cons_2; [intros buf [= <-]; vm_compute; reflexivity|].
      apply Forall_cons_2; [intros buf [= <-]; vm_compute; reflexivity|].
      apply Forall_cons_2; [intros buf [=]|]. apply Forall_nil_2.
    + exists w', x'. by split_and!.
Defined.

Lemma C7_empty_credentials_denied_witness :
  let _ := sound_store in
  ∃ w' x', HandlePacket 1%positive (frame x01 "" "hostZ" "") w_new = Some w'
    ∧ store w' = store w_new ∧ Clients w' = Clients w_new
    ∧ heap w' !! 1%positive = Some x'
    ∧ sock_out (Socket x') = [MarshalResponse {| Response := AuthenticateDenied |}]
    ∧ sock_closed (Socket x') = false
    ∧ ID x' = "" ∧ Hostname x' = ""
    ∧ Data x' = Data (waiting "" "").
Proof.
  cbv zeta.
  refine (C7_empty_credentials_denied (H1 := sound_store) 1%positive
            (waiting "" "") (frame x01 "" "hostZ" "") w_new
            {| Type_ := MessageAuthenticate; SenderID := "";
               protocol.Hostname := "hostZ" |} (cstring "") _ _ _ _).
  - vm_compute. reflexivity.
  - vm_compute. reflexivity.
  - reflexivity.
  - left. vm_compute. reflexivity.
Defined.

Lemma C8_unknown_token_creates_record_witness :
  (∃ w' r, AuthenticateClient (H1 := sound_store) 1%positive tok9 w_new = Some w'
           ∧ store w_new !! "tok9" = None
           ∧ store w' !! "tok9" = Some r
           ∧ heap w' !! 1%positive = Some (waiting "tok9" "hostZ"))
  ∧ AuthenticateClient (H1 := full_store) 1%positive tok9 w_new = Some w_new.
Proof.
  split.
  - destruct (C8_unknown_token_creates_record (H1 := sound_store) 1%positive
                (waiting "" "") tok9 w_new) as (Hnone & Hmade & _);
      [vm_compute; reflexivity..|].
    destruct Hmade as (w' & r & Ha & Hr & _ & _ & _ & Hx); [reflexivity|].
    exists w', r. by split_and!.
  - refine (proj2 (proj2 (C8_unknown_token_creates_record (H1 := full_store)
              1%positive (waiting "" "") tok9 w_new _ _)) _);
      vm_compute; reflexivity.
Defined.

Lemma C9_reauthentication_keeps_channels_witness :
  let _ := sound_store in
  ∃ w' r', AuthenticateClient 2%positive
             {| Token := "tok2"; AuthHostname := "srvB2" |} (w0 [])
           = Some w'
           ∧ store w' !! "tok2" = Some r'
           ∧ entity.receive_channels r' = [1%Z]
           ∧ entity.send_channels r' = []
           ∧ entity.display_name r' = "srvB2".
Proof.
  cbv zeta.
  destruct (C9_reauthentication_keeps_channels (H1 := sound_store) 2%positive
              (waiting "tok2" "srvB")
              {| Token := "tok2"; AuthHostname := "srvB2" |} (w0 [])
              (row [1%Z] []))
    as (w' & r' & Ha & Hr & Hrc & Hsc & Hdn & _);
    [vm_compute; reflexivity..|].
  exists w', r'. split_and!; try done. by apply Hdn.
Defined.

Lemma C10_success_response_always_witness :
  let _ := full_store in
  ∃ w' x', HandlePacket 1%positive (frame x01 "" "hostZ" "tok9") w_new
           = Some w'
           ∧ heap w' !! 1%positive = Some x'
           ∧ sock_out (Socket x')
             = [MarshalResponse {| Response := AuthenticateSuccess |}]
           ∧ ID x' = "" ∧ store w' = store w_new.
Proof.
  cbv zeta.
  destruct (C10_success_response_always (H1 := full_store) 1%positive
              (waiting "" "") (frame x01 "" "hostZ" "tok9") w_new
              {| Type_ := MessageAuthenticate; SenderID := "";
                 protocol.Hostname := "hostZ" |} (cstring "tok9"))
    as (w' & x' & Hh & Hx & Hout & Hunbound).
  - vm_compute. reflexivity.
  - vm_compute. reflexivity.
  - reflexivity.
  - vm_compute. discriminate.
  - vm_compute. discriminate.
  - destruct Hunbound as (Hid & _ & Hst); [vm_compute; reflexivity..|].
    exists w', x'. by split_and!.
Defined.

End Examples.

(** * More of relay.go *)

(** ** The exact world after each operation *)

Lemma World_eq w1 w2 :
  Clients w1 = Clients w2 → Router w1 = Router w2 → Bot w1 = Bot w2 →
  heap w1 = heap w2 → store w1 = store w2 → w1 = w2.
Proof. destruct w1, w2; simpl; intros; by subst. Qed.

Section Exact.
Context `{Codec} `{Filter} `{entity.Faults}.

Lemma RemoveClient_exact c w cl :
  registered_open w = true → heap w !! c = Some cl →
  (is_Some (Clients w !! c) ∧ ch_closed (Data cl) = false
   ∧ RemoveClient c w
     = Some (set_Clients (delete c (Clients w))
               (set_heap (<[c := with_Data (closed_chan (Data cl)) cl]> (heap w)) w)))
  ∨ (Clients w !! c = None ∧ RemoveClient c w = Some w).
Proof.
  intros Hwf Hc. unfold RemoveClient.
  destruct (Clients w !! c) as [b|] eqn:Hreg; [left|by right].
  destruct (registered_open_lookup w c Hwf) as (cl0 & Hcl0 & Hopen);
    [by rewrite Hreg|].
  assert (cl0 = cl) as -> by congruence.
  split; [by eexists|]. split; [done|].
  rewrite Hc. simpl. unfold close. by rewrite Hopen.
Qed.

Lemma AuthenticateClient_exact c p w cl :
  heap w !! c = Some cl →
  (∃ st, AuthenticateClient c p w
         = Some (set_heap
                   (<[c := with_binding (Token p) (AuthHostname p) cl]> (heap w))
                   (set_store st w))
         ∧ (∀ k, k ≠ Token p → store w !! k = None → st !! k = None))
  ∨ (AuthenticateClient c p w = Some w
     ∧ (entity.GetEntity (store w) (Token p)).2 = Some entity.ErrNoRows
     ∧ entity.insert_fault (fresh_entity p) = true).
Proof.
  intros Hc.
  assert (∀ e (st : gmap string entity.Row) k,
            st !! k = None →
            entity.SetDisplayName e (AuthHostname p) st !! k = None) as Hset.
  { intros e st k Hk. unfold entity.SetDisplayName.
    destruct (entity.set_fault _ _); [done|].
    rewrite lookup_alter. case_decide; subst; by rewrite Hk. }
  assert (∀ e st0, bind_client c e p (set_store st0 w)
            = Some (set_heap
                      (<[c := with_binding (Token p) (AuthHostname p) cl]> (heap w))
                      (set_store (entity.SetDisplayName e (AuthHostname p) st0) w)))
    as Hbind.
  { intros e st0. unfold bind_client. simpl. by rewrite Hc. }
  assert (set_store (store w) w = w) as Hid by (by destruct w).
  unfold AuthenticateClient.
  destruct (entity.GetEntity (store w) (Token p)) as [e err] eqn:Hget.
  destruct err as [[]|].
  - fold (fresh_entity p). unfold entity.Insert.
    destruct (entity.insert_fault (fresh_entity p)) eqn:Hins.
    + right. by rewrite Hid.
    + left. eexists. split; [apply Hbind|].
      intros k Hne Hk. apply Hset. simpl. by rewrite lookup_insert_ne.
  - left. eexists. rewrite <- Hid at 1. split; [apply Hbind|].
    intros k _ Hk. by apply Hset.
  - left. eexists. rewrite <- Hid at 1. split; [apply Hbind|].
    intros k _ Hk. by apply Hset.
Qed.

(** The six ways through [HandlePacket], with the world each gives. *)
Lemma HandlePacket_exact c buf w cl :
  registered_open w = true → heap w !! c = Some cl →
  let base := (ParseBaseMessage buf).1 in
  let p := ParseAuthenticateMessage base (ParseBaseMessage buf).2 in
  (is_authenticate buf = true ∧ (Token p = "" ∨ AuthHostname p = "")
   ∧ HandlePacket c buf w
     = Some (set_heap (<[c := respond AuthenticateDenied cl]> (heap w)) w))
  ∨ (is_authenticate buf = true ∧ Token p ≠ "" ∧ AuthHostname p ≠ ""
     ∧ ∃ st, (∀ k, k ≠ Token p → store w !! k = None → st !! k = None)
        ∧ HandlePacket c buf w
          = Some (set_heap
                    (<[c := respond AuthenticateSuccess
                              (with_binding (Token p) (AuthHostname p) cl)]>
                       (heap w))
                    (set_store st w)))
  ∨ (is_authenticate buf = true ∧ Token p ≠ "" ∧ AuthHostname p ≠ ""
     ∧ (entity.GetEntity (store w) (Token p)).2 = Some entity.ErrNoRows
     ∧ entity.insert_fault (fresh_entity p) = true
     ∧ HandlePacket c buf w
       = Some (set_heap (<[c := respond AuthenticateSuccess cl]> (heap w)) w))
  ∨ (is_authenticate buf = false ∧ Authenticated cl = false
     ∧ HandlePacket c buf w = Some w)
  ∨ (is_authenticate buf = false ∧ Authenticated cl = true
     ∧ (Type_ base = MessageChat ∨ Type_ base = MessageEvent)
     ∧ ∃ msg, Author msg = ID cl ∧ protocol.Hostname (Base msg) = Hostname cl
        ∧ HandlePacket c buf w = Some (set_Router (Router w ++ [msg]) w))
  ∨ (is_authenticate buf = false ∧ Authenticated cl = true
     ∧ (∃ tag, Type_ base = MessageOther tag)
     ∧ ((is_Some (Clients w !! c) ∧ ch_closed (Data cl) = false
         ∧ HandlePacket c buf w
           = Some (set_Clients (delete c (Clients w))
                     (set_heap
                        (<[c := with_Socket (closed_sock (Socket cl))
                                  (with_Data (closed_chan (Data cl)) cl)]>
                           (heap w)) w)))
        ∨ (Clients w !! c = None
           ∧ HandlePacket c buf w
             = Some (set_heap
                       (<[c := with_Socket (closed_sock (Socket cl)) cl]>
                          (heap w)) w)))).
Proof.
  intros Hwf Hc. unfold is_authenticate.
  destruct (ParseBaseMessage buf) as [base reader] eqn:Hp. simpl.
  set (p := ParseAuthenticateMessage base reader).
  destruct (decide (Type_ base = MessageAuthenticate)) as [Hty|Hty].
  - rewrite bool_decide_eq_true_2 by done.
    destruct (decide (Token p = "" ∨ AuthHostname p = "")) as [Hempty|Hfull].
    + left. split; [done|]. split; [done|].
      rewrite (HandlePacket_denied c buf w base reader Hp Hty Hempty).
      by rewrite (Socket_Write_eq c _ w cl Hc).
    + right.
      assert (Token p ≠ "") as Htok by (intros ?; apply Hfull; by left).
      assert (AuthHostname p ≠ "") as Hhost by (intros ?; apply Hfull; by right).
      rewrite (HandlePacket_authenticate c buf w base reader Hp Hty Htok Hhost).
      fold p.
      destruct (AuthenticateClient_exact c p w cl Hc)
        as [(st & -> & Hst)|(-> & Hnf & Hins)]; simpl.
      * left. split; [done|]. split; [done|]. split; [done|].
        exists st. split; [done|].
        erewrite Socket_Write_eq; [|simpl; apply lookup_insert_eq].
        simpl. by rewrite insert_insert_eq.
      * right. left. split_and!; try done.
        by rewrite (Socket_Write_eq c _ w cl Hc).
  - rewrite bool_decide_eq_false_2 by done.
    do 3 right.
    rewrite (HandlePacket_other c buf w base reader cl Hp Hty Hc).
    destruct (Authenticated cl) eqn:Hauth; simpl; [right|by left].
    destruct (Type_ base) as [| | |tag] eqn:Hb; [done|..].
    + left. split; [done|]. split; [done|]. split; [by left|].
      exists (ParseChatMessage (with_sender (ID cl) (Hostname cl) base) reader).
      by split_and!.
    + left. split; [done|]. split; [done|]. split; [by right|].
      exists (ParseEventMessage (with_sender (ID cl) (Hostname cl) base) reader).
      by split_and!.
    + right. split; [done|]. split; [done|]. split; [by eexists|].
      destruct (RemoveClient_exact c w cl Hwf Hc)
        as [(Hreg & Hopen & ->)|(Hreg & ->)]; simpl.
      * left. split; [done|]. split; [done|].
        erewrite Socket_Close_eq; [|simpl; apply lookup_insert_eq].
        simpl. by rewrite insert_insert_eq.
      * right. split; [done|]. by rewrite (Socket_Close_eq c w cl Hc).
Qed.

End Exact.

(** ** The receive path, one packet and one loop at a time *)
Ltac packet_cases c buf w cl Hwf Hc Hh :=
  let Heq := fresh "Heq" in
  destruct (HandlePacket_exact c buf w cl Hwf Hc)
    as [(?&?&Heq)|[(?&?&?&?&?&Heq)|[(?&?&?&?&?&Heq)|[(?&?&Heq)
       |[(?&?&?&?&?&?&Heq)|(?&?&?&[(?&?&Heq)|(?&Heq)])]]]]];
  rewrite Heq in Hh; simplify_eq; simpl in *.

Section Receive.
Context `{Codec} `{Filter} `{entity.Faults}.

(** The exit of [ListenClientReceive] on a read error. *)
Lemma disconnect_ok c w cl :
  registered_open w = true → heap w !! c = Some cl →
  ∃ w' cl', (w1 ← RemoveClient c w; Socket_Close c w1) = Some w'
    ∧ registered_open w' = true
    ∧ heap w' !! c = Some cl'
    ∧ Clients w' !! c = None
    ∧ sock_closed (Socket cl') = true
    ∧ sock_out (Socket cl') = sock_out (Socket cl)
    ∧ ID cl' = ID cl ∧ Hostname cl' = Hostname cl
    ∧ (is_Some (Clients w !! c) → ch_closed (Data cl') = true)
    ∧ (Clients w !! c = None → Data cl' = Data cl)
    ∧ Router w' = Router w ∧ Bot w' = Bot w ∧ store w' = store w
    ∧ (∀ d, d ≠ c →
         heap w' !! d = heap w !! d ∧ Clients w' !! d = Clients w !! d).
Proof.
  intros Hwf Hc.
  destruct (RemoveClient_ok c w cl Hwf Hc)
    as (w1 & cl1 & Hrm & Hk & _ & Hc1 & _).
  assert (registered_open w1 = true) as Hwf1
    by (by eapply keeps_registered_open).
  destruct (RemoveClient_exact c w cl Hwf Hc)
    as [(Hreg & Hopen & Heq)|(Hreg & Heq)]; rewrite Heq; simpl.
  - erewrite Socket_Close_eq; [|simpl; apply lookup_insert_eq].
    eexists _, _. split; [done|]. simpl.
    rewrite insert_insert_eq, lookup_insert_eq, lookup_delete_eq.
    split_and!; try done.
    + rewrite Heq in Hrm. simplify_eq.
      eapply keeps_registered_open; [|exact Hwf1].
      intros d Hd. split; [done|]. simpl in *.
      destruct (decide (d = c)) as [->|Hne].
      * rewrite lookup_delete_eq in Hd. by destruct Hd.
      * by rewrite !lookup_insert_ne.
    + by intros Hnone; rewrite Hnone in Hreg; destruct Hreg.
    + intros d Hne. by rewrite lookup_insert_ne, lookup_delete_ne.
  - rewrite (Socket_Close_eq c w cl Hc).
    eexists _, _. split; [done|]. simpl. rewrite lookup_insert_eq.
    split_and!; try done.
    + eapply keeps_registered_open; [|exact Hwf]. by eapply keeps_set_heap.
    + rewrite Hreg. by intros [? ?].
    + intros d Hne. by rewrite lookup_insert_ne.
Qed.


(** What a packet does to the client it came from. *)
Lemma HandlePacket_own c buf w cl w' :
  registered_open w = true → heap w !! c = Some cl →
  HandlePacket c buf w = Some w' →
  ∃ cl', heap w' !! c = Some cl'
    ∧ ((Clients w' !! c = Clients w !! c ∧ Data cl' = Data cl)
       ∨ (Clients w' !! c = None ∧ ch_closed (Data cl') = true))
    ∧ (sock_closed (Socket cl) = true → sock_closed (Socket cl') = true)
    ∧ (is_authenticate buf = false →
       ID cl' = ID cl ∧ Hostname cl' = Hostname cl)
    ∧ sock_out (Socket cl')
      = sock_out (Socket cl)
        ++ (if is_authenticate buf
            then [MarshalResponse
                    {| Response :=
                         response_to
                           (ParseAuthenticateMessage (ParseBaseMessage buf).1
                              (ParseBaseMessage buf).2) |}]
            else []).
Proof.
  intros Hwf Hc Hh. unfold response_to.
  packet_cases c buf w cl Hwf Hc Hh;
    rewrite ?lookup_insert_eq, ?lookup_delete_eq;
    try (eexists; split; [done|]); simpl;
    repeat match goal with
           | Hi : is_authenticate buf = _ |- _ => rewrite Hi; clear Hi
           end;
    rewrite ?app_nil_r.
  - rewrite decide_True by done. split_and!; try done. by left.
  - rewrite decide_False by (by intros [?|?]). split_and!; try done. by left.
  - rewrite decide_False by (by intros [?|?]). split_and!; try done. by left.
  - split_and!; try done. by left.
  - split_and!; try done. by left.
  - split_and!; try done. by right.
  - split_and!; try done. left. by split.
Qed.

(** What a packet puts on [r.Router]: nothing, or one message at the back
    that carries the binding of its connection. *)
Lemma HandlePacket_router c buf w cl w' :
  registered_open w = true → heap w !! c = Some cl →
  HandlePacket c buf w = Some w' →
  Router w' = Router w
  ∨ ∃ msg, Router w' = Router w ++ [msg] ∧ Authenticated cl = true
           ∧ is_authenticate buf = false
           ∧ Author msg = ID cl
           ∧ protocol.Hostname (Base msg) = Hostname cl.
Proof.
  intros Hwf Hc Hh.
  packet_cases c buf w cl Hwf Hc Hh; try (by left).
  right. eexists. by split_and!.
Qed.

Lemma HandlePacket_store c buf w cl w' :
  registered_open w = true → heap w !! c = Some cl →
  HandlePacket c buf w = Some w' →
  store w !! "" = None → store w' !! "" = None.
Proof.
  intros Hwf Hc Hh Hnone.
  packet_cases c buf w cl Hwf Hc Hh; try done.
  match goal with Hst : ∀ k, _ → _ → _ !! k = None |- _ => apply Hst end;
    [congruence|done].
Qed.

(** An invariant of the receive loop: [I] holds at the end when every
    dispatched packet and the exit on a read error keep it. *)
Lemma ListenClientReceive_inv (I : World → Prop) (ok : bytes → Prop) c :
  (∀ w cl buf w', registered_open w = true → heap w !! c = Some cl →
     I w → ok buf → HandlePacket c buf w = Some w' → I w') →
  (∀ w cl w', registered_open w = true → heap w !! c = Some cl →
     I w → (w1 ← RemoveClient c w; Socket_Close c w1) = Some w' → I w') →
  ∀ reads w cl,
    Forall (λ r, ∀ buf, r = Some buf → ok buf) reads →
    registered_open w = true → heap w !! c = Some cl → I w →
    ∃ w' cl', ListenClientReceive c reads w = Some w'
      ∧ registered_open w' = true ∧ heap w' !! c = Some cl' ∧ I w'.
Proof.
  intros Hstep Hexit.
  induction reads as [|[buf|] reads IH]; intros w cl Hok Hwf Hc HI; simpl.
  - by exists w, cl.
  - apply Forall_cons in Hok as [Hbuf Hok].
    destruct buf as [|b buf']; [by apply (IH w cl)|].
    destruct (HandlePacket_step c (b :: buf') w cl Hwf Hc)
      as (w1 & cl1 & Hh & Hwf1 & Hc1 & _).
    rewrite Hh. simpl. apply (IH w1 cl1); try done.
    apply (Hstep w cl (b :: buf') w1); try done. exact (Hbuf _ eq_refl).
  - destruct (disconnect_ok c w cl Hwf Hc)
      as (w' & cl' & Hd & Hwf' & Hc' & _).
    exists w', cl'. split_and!; try done. by apply (Hexit w cl w').
Qed.

End Receive.

(** ** Properties of the registry and of the receive loop *)
Section ReceiveProperties.
Context `{Codec} `{Filter} `{entity.Faults}.

(** X1: removing a client twice is removing it once: the second
    [RemoveClient] finds no registration, closes nothing and leaves the
    world as the first left it. *)
Theorem X1_RemoveClient_twice (c : ptr) (w : World) (cl : RelayClient) :
  registered_open w = true → heap w !! c = Some cl →
  ∃ w', RemoveClient c w = Some w'
        ∧ Clients w' !! c = None
        ∧ RemoveClient c w' = Some w'.
Proof.
  intros Hwf Hc.
  destruct (RemoveClient_ok c w cl Hwf Hc) as (w' & cl' & Hrm & _ & Hnone & _).
  exists w'. split; [done|]. split; [done|].
  unfold RemoveClient. by rewrite Hnone.
Qed.

(** X2: a connection that is accepted and then removed leaves the registry
    as it was before the accept; its mailbox is closed without ever having
    held a frame, and no other client is touched. *)
Theorem X2_accept_then_remove (c : ptr) (conn : Conn) (w : World) :
  Clients w !! c = None →
  ∃ w' cl', RemoveClient c (ProcessConnections_accept c conn w) = Some w'
    ∧ Clients w' = Clients w
    ∧ heap w' !! c = Some cl'
    ∧ ch_closed (Data cl') = true ∧ ch_log (Data cl') = []
    ∧ Socket cl' = conn ∧ Authenticated cl' = false
    ∧ (∀ d, d ≠ c → heap w' !! d = heap w !! d)
    ∧ Router w' = Router w ∧ Bot w' = Bot w ∧ store w' = store w.
Proof.
  intros Hfresh. unfold RemoveClient, ProcessConnections_accept, AddClient.
  simpl. rewrite !lookup_insert_eq. simpl.
  eexists _, _. split; [done|]. simpl.
  rewrite lookup_insert_eq, insert_insert_eq, delete_insert_eq.
  split_and!; try done.
  - by apply delete_id.
  - intros d Hne. by rewrite lookup_insert_ne.
Qed.


(** X4: before it has authenticated, a connection can send any number of
    packets of any type but Authenticate: each is dropped, and the world is
    what it was: nothing is routed, nothing is answered, the connection
    stays registered. *)
Theorem X4_unauthenticated_packets_dropped (c : ptr)
  (reads : list (option bytes)) (w : World) (cl : RelayClient) :
  heap w !! c = Some cl → Authenticated cl = false →
  Forall (λ r, ∃ buf, r = Some buf ∧ is_authenticate buf = false) reads →
  ListenClientReceive c reads w = Some w.
Proof.
  intros Hc Hauth. induction 1 as [|r reads (buf & -> & Hna) _ IH]; [done|].
  simpl. destruct buf as [|b buf']; [done|].
  unfold is_authenticate in Hna. apply bool_decide_eq_false in Hna.
  destruct (ParseBaseMessage (b :: buf')) as [base reader] eqn:Hp.
  rewrite (HandlePacket_other c _ w base reader cl Hp Hna Hc).
  by rewrite Hauth.
Qed.

(** X5: a packet of an undeclared type from an authenticated, registered
    connection ends that connection: it leaves the registry, its mailbox
    and its socket are closed; nothing is written to the socket and nothing
    is routed. *)
Theorem X5_undeclared_type_disconnects (c : ptr) (buf : bytes) (w : World)
  (cl : RelayClient) (tag : N) :
  registered_open w = true → heap w !! c = Some cl →
  is_Some (Clients w !! c) → Authenticated cl = true →
  Type_ (ParseBaseMessage buf).1 = MessageOther tag →
  ∃ w' cl', HandlePacket c buf w = Some w'
    ∧ Clients w' !! c = None
    ∧ heap w' !! c = Some cl'
    ∧ ch_closed (Data cl') = true ∧ ch_log (Data cl') = ch_log (Data cl)
    ∧ sock_closed (Socket cl') = true
    ∧ sock_out (Socket cl') = sock_out (Socket cl)
    ∧ Router w' = Router w ∧ Bot w' = Bot w ∧ store w' = store w.
Proof.
  intros Hwf Hc Hreg Hauth Hty.
  destruct (HandlePacket_exact c buf w cl Hwf Hc)
    as [(Hia&_)|[(Hia&_)|[(Hia&_)|[(_&Hna&_)|[(_&_&Hce&_)
       |(_&_&_&[(_&_&Heq)|(Hnone&_)])]]]]].
  1-3: unfold is_authenticate in Hia; apply bool_decide_eq_true in Hia;
    congruence.
  - congruence.
  - destruct Hce; congruence.
  - rewrite Heq. eexists _, _. split; [done|]. simpl.
    rewrite lookup_delete_eq, lookup_insert_eq. by split_and!.
  - rewrite Hnone in Hreg. by destruct Hreg.
Qed.

(** X6: once a read fails, the receive loop of a registered connection
    ends with the connection out of the registry, its mailbox closed and
    its socket closed, whatever packets came before the failure. *)
Theorem X6_read_error_ends_connection (c : ptr)
  (reads : list (option bytes)) (w : World) (cl : RelayClient) :
  registered_open w = true → heap w !! c = Some cl →
  is_Some (Clients w !! c) → None ∈ reads →
  ∃ w' cl', ListenClientReceive c reads w = Some w'
    ∧ Clients w' !! c = None
    ∧ heap w' !! c = Some cl'
    ∧ ch_closed (Data cl') = true
    ∧ sock_closed (Socket cl') = true.
Proof.
  intros Hwf Hc Hreg Hin.
  assert (is_Some (Clients w !! c) ∨ ch_closed (Data cl) = true) as HJ
    by (by left).
  clear Hreg. revert w cl Hwf Hc HJ.
  induction reads as [|[buf|] reads IH]; intros w cl Hwf Hc HJ; simpl.
  - by apply not_elem_of_nil in Hin.
  - apply elem_of_cons in Hin as [?|Hin]; [done|].
    destruct buf as [|b buf']; [by apply (IH Hin w cl)|].
    destruct (HandlePacket_step c (b :: buf') w cl Hwf Hc)
      as (w1 & cl1 & Hh & Hwf1 & Hc1 & _).
    rewrite Hh. simpl. apply (IH Hin w1 cl1); try done.
    destruct (HandlePacket_own c (b :: buf') w cl w1 Hwf Hc Hh)
      as (cl1' & Hc1' & Hmb & _).
    assert (cl1' = cl1) as -> by congruence.
    destruct Hmb as [[-> ->]|[_ ?]]; [done|by right].
  - destruct (disconnect_ok c w cl Hwf Hc)
      as (w' & cl' & Hd & _ & Hc' & Hnone & Hsc & _ & _ & _ & Hcl & Hsame & _).
    exists w', cl'. split_and!; try done.
    destruct (Clients w !! c) as [b|] eqn:Hreg; [by apply Hcl|].
    destruct HJ as [[? ?]|Hclosed]; [done|]. by rewrite Hsame.
Qed.


(** X8: whatever a connection sends, Authenticate packets included, no
    message reaches the router's queue without an author: every message
    the receive loop appends has a non-empty author id. *)
Theorem X8_no_anonymous_submission (c : ptr) (reads : list (option bytes))
  (w : World) (cl : RelayClient) :
  registered_open w = true → heap w !! c = Some cl →
  ∃ w' msgs, ListenClientReceive c reads w = Some w'
    ∧ Router w' = Router w ++ msgs
    ∧ Forall (λ m, Author m ≠ "") msgs.
Proof.
  intros Hwf Hc.
  destruct (ListenClientReceive_inv
              (λ w1, ∃ msgs, Router w1 = Router w ++ msgs
                             ∧ Forall (λ m, Author m ≠ "") msgs)
              (λ _, True) c)
    with (reads := reads) (w := w) (cl := cl)
    as (w' & cl' & Hl & _ & _ & msgs & Hr & Hall); try done.
  - intros w1 cl1 buf w2 Hwf1 Hc1 (msgs & Hr & Hall) _ Hh.
    destruct (HandlePacket_router c buf w1 cl1 w2 Hwf1 Hc1 Hh)
      as [Hr2|(msg & Hr2 & Hauth & _ & Ha & _)].
    + exists msgs. split; [congruence|done].
    + exists (msgs ++ [msg]). split; [by rewrite Hr2, Hr, app_assoc|].
      apply Forall_app. split; [done|]. apply Forall_singleton.
      rewrite Ha. by apply Authenticated_nonempty.
  - intros w1 cl1 w2 Hwf1 Hc1 (msgs & Hr & Hall) Hd.
    destruct (disconnect_ok c w1 cl1 Hwf1 Hc1)
      as (w3 & cl3 & Hd3 & _ & _ & _ & _ & _ & _ & _ & _ & _ & Hr3 & _).
    assert (w3 = w2) as -> by congruence.
    exists msgs. split; [congruence|done].
  - by apply Forall_forall.
  - exists []. split; [by rewrite app_nil_r|done].
  - by exists w', msgs.
Qed.

End ReceiveProperties.

Section HandshakeProperties.
Context `{Codec} `{Filter} `{entity.Faults}.

(** X9: over a whole receive loop the socket is written once for each
    Authenticate packet dispatched before the first failed read, in the
    order of the packets, with Denied when the token or the hostname is
    empty and Success otherwise; no other packet is answered. *)
Theorem X9_one_response_per_authenticate (c : ptr)
  (reads : list (option bytes)) :
  ∀ (w : World) (cl : RelayClient),
  registered_open w = true → heap w !! c = Some cl →
  ∃ w' cl', ListenClientReceive c reads w = Some w'
    ∧ heap w' !! c = Some cl'
    ∧ sock_out (Socket cl')
      = sock_out (Socket cl) ++ response_frames (frames_until_close reads).
Proof.
  induction reads as [|[buf|] reads IH]; intros w cl Hwf Hc; simpl.
  - exists w, cl. by rewrite app_nil_r.
  - destruct buf as [|b buf']; [by apply IH|].
    destruct (HandlePacket_step c (b :: buf') w cl Hwf Hc)
      as (w1 & cl1 & Hh & Hwf1 & Hc1 & _).
    rewrite Hh. simpl.
    destruct (HandlePacket_own c (b :: buf') w cl w1 Hwf Hc Hh)
      as (cl1' & Hc1' & _ & _ & _ & Hout).
    assert (cl1' = cl1) as -> by congruence.
    destruct (IH w1 cl1 Hwf1 Hc1) as (w' & cl' & Hl & Hc' & Hout').
    exists w', cl'. split_and!; try done.
    by rewrite Hout', Hout, <- app_assoc.
  - destruct (disconnect_ok c w cl Hwf Hc)
      as (w' & cl' & Hd & _ & Hc' & _ & _ & Hout & _).
    exists w', cl'. split_and!; try done. by rewrite app_nil_r.
Qed.

(** X10: the receive loop never creates an identity record under the empty
    id: the authenticator is only called with a non-empty token. *)
Theorem X10_no_record_for_empty_id (c : ptr) (reads : list (option bytes))
  (w : World) (cl : RelayClient) :
  registered_open w = true → heap w !! c = Some cl →
  store w !! "" = None →
  ∃ w', ListenClientReceive c reads w = Some w' ∧ store w' !! "" = None.
Proof.
  intros Hwf Hc Hnone.
  destruct (ListenClientReceive_inv (λ w1, store w1 !! "" = None)
              (λ _, True) c)
    with (reads := reads) (w := w) (cl := cl)
    as (w' & cl' & Hl & _ & _ & Hst); try done.
  - intros w1 cl1 buf w2 Hwf1 Hc1 Hst _ Hh.
    by eapply (HandlePacket_store c buf w1 cl1 w2).
  - intros w1 cl1 w2 Hwf1 Hc1 Hst Hd.
    destruct (disconnect_ok c w1 cl1 Hwf1 Hc1)
      as (w3 & cl3 & Hd3 & _ & _ & _ & _ & _ & _ & _ & _ & _ & _ & _ & Hst3 & _).
    assert (w3 = w2) as -> by congruence. congruence.
  - by apply Forall_forall.
  - by exists w'.
Qed.

(** X11: after an Authenticate packet with a token and a hostname, both
    non-empty, whose record is found or created, the next chat or event
    packet of the connection is submitted to the router under that token
    and that hostname. *)
Theorem X11_authenticate_then_submit (c : ptr) (cl : RelayClient)
  (buf1 buf2 : bytes) (w : World) (base1 base2 : BaseMessage)
  (rd1 rd2 : bytes) :
  heap w !! c = Some cl →
  ParseBaseMessage buf1 = (base1, rd1) →
  Type_ base1 = MessageAuthenticate →
  Token (ParseAuthenticateMessage base1 rd1) ≠ "" →
  AuthHostname (ParseAuthenticateMessage base1 rd1) ≠ "" →
  ¬ ((entity.GetEntity (store w)
        (Token (ParseAuthenticateMessage base1 rd1))).2
     = Some entity.ErrNoRows
     ∧ entity.insert_fault (fresh_entity (ParseAuthenticateMessage base1 rd1))
       = true) →
  ParseBaseMessage buf2 = (base2, rd2) →
  Type_ base2 = MessageChat ∨ Type_ base2 = MessageEvent →
  ∃ w1 msg, HandlePacket c buf1 w = Some w1
    ∧ Router w1 = Router w
    ∧ HandlePacket c buf2 w1 = Some (set_Router (Router w ++ [msg]) w1)
    ∧ Author msg = Token (ParseAuthenticateMessage base1 rd1)
    ∧ protocol.Hostname (Base msg)
      = AuthHostname (ParseAuthenticateMessage base1 rd1).
Proof.
  intros Hc Hp1 Hty1 Htok Hhost Hmade Hp2 Hty2.
  set (p := ParseAuthenticateMessage base1 rd1) in *.
  set (cl1 := respond AuthenticateSuccess
                (with_binding (Token p) (AuthHostname p) cl)).
  destruct (AuthenticateClient_exact c p w cl Hc)
    as [(st & Ha & _)|(_ & Hnf & Hins)]; [|by destruct Hmade].
  set (w1 := set_heap (<[c := cl1]> (heap w)) (set_store st w)).
  assert (HandlePacket c buf1 w = Some w1) as Hh1.
  { rewrite (HandlePacket_authenticate c buf1 w base1 rd1 Hp1 Hty1 Htok Hhost).
    fold p. rewrite Ha. simpl.
    erewrite Socket_Write_eq; [|simpl; apply lookup_insert_eq].
    simpl. by rewrite insert_insert_eq. }
  assert (heap w1 !! c = Some cl1) as Hc1 by apply lookup_insert_eq.
  assert (Type_ base2 ≠ MessageAuthenticate) as Hna
    by (destruct Hty2 as [Ht|Ht]; rewrite Ht; discriminate).
  assert (Authenticated cl1 = true) as Hauth
    by (by apply Authenticated_nonempty).
  exists w1.
  rewrite (HandlePacket_other c buf2 w1 base2 rd2 cl1 Hp2 Hna Hc1), Hauth.
  simpl. destruct Hty2 as [-> | ->]; eexists; by split_and!.
Qed.

(** X12: the send loop writes the frames it receives from the mailbox to
    the socket in the order it receives them, and when the mailbox is
    closed it closes the socket and writes nothing more; it touches
    nothing but the socket of its own connection. *)
Theorem X12_send_loop_writes_in_order (c : ptr)
  (recvs : list (option bytes)) :
  ∀ (w : World) (cl : RelayClient),
  heap w !! c = Some cl →
  ∃ w' cl', ListenClientSend c recvs w = Some w'
    ∧ heap w' !! c = Some cl'
    ∧ sock_out (Socket cl')
      = sock_out (Socket cl) ++ frames_until_close recvs
    ∧ (sock_closed (Socket cl') = true
       ↔ sock_closed (Socket cl) = true ∨ None ∈ recvs)
    ∧ Data cl' = Data cl ∧ ID cl' = ID cl ∧ Hostname cl' = Hostname cl
    ∧ Clients w' = Clients w ∧ Router w' = Router w ∧ Bot w' = Bot w
    ∧ store w' = store w
    ∧ ∀ d, d ≠ c → heap w' !! d = heap w !! d.
Proof.
  induction recvs as [|[frame|] recvs IH]; intros w cl Hc; simpl.
  - exists w, cl. rewrite app_nil_r. split_and!; try done.
    split; [by left|]. intros [?|Hin]; [done|].
    by apply not_elem_of_nil in Hin.
  - rewrite (Socket_Write_eq c frame w cl Hc). simpl.
    set (cl1 := with_Socket
                  {| sock_out := sock_out (Socket cl) ++ [frame];
                     sock_closed := sock_closed (Socket cl) |} cl).
    destruct (IH (set_heap (<[c := cl1]> (heap w)) w) cl1)
      as (w' & cl' & Hl & Hc' & Hout & Hcl & HD & Hid & Hhn
          & Hcs & Hr & Hb & Hst & Hfr);
      [apply lookup_insert_eq|].
    exists w', cl'. simpl in *. split_and!; try done.
    + by rewrite Hout, <- app_assoc.
    + rewrite Hcl, elem_of_cons. split; [tauto|].
      intros [?|[?|?]]; [by left|done|by right].
    + intros d Hne. rewrite (Hfr d Hne). by rewrite lookup_insert_ne.
  - rewrite (Socket_Close_eq c w cl Hc).
    eexists _, _. split; [done|]. simpl. rewrite lookup_insert_eq.
    rewrite app_nil_r.
    split_and!; try done.
    + split; [intros _; right; by left|done].
    + intros d Hne. by rewrite lookup_insert_ne.
Qed.

End HandshakeProperties.

(** ** Properties of the router *)
Section RouterProperties.
Context `{Codec} `{Filter} `{entity.Faults}.

(** What the loop body does to the client it is at. *)
Lemma deliver_result m c w wc cl :
  heap w !! c = Some cl → deliver m c w = Some wc →
  ∃ cl', heap wc !! c = Some cl'
    ∧ Socket cl' = Socket cl ∧ ID cl' = ID cl ∧ Hostname cl' = Hostname cl
    ∧ ((eligible (store w) m cl = false ∧ cl' = cl
        ∧ Clients wc !! c = Clients w !! c)
       ∨ (eligible (store w) m cl = true
          ∧ ch_log (Data cl') = ch_log (Data cl) ++ [Marshal m]
          ∧ ch_closed (Data cl') = false
          ∧ Clients wc !! c = Clients w !! c)
       ∨ (eligible (store w) m cl = true
          ∧ ch_room (Data cl) = 0
          ∧ ch_log (Data cl') = ch_log (Data cl)
          ∧ ch_closed (Data cl') = true
          ∧ Clients wc !! c = None)).
Proof.
  intros Hc Hd. unfold deliver in Hd. rewrite Hc in Hd. simpl in Hd.
  unfold eligible.
  destruct (entity.GetEntity (store w) (ID cl)) as [e [err|]].
  { simplify_eq. exists cl. split_and!; try done. by left. }
  destruct (_ && _).
  2:{ simplify_eq. exists cl. split_and!; try done. by left. }
  unfold try_send, close in Hd.
  destruct (ch_closed (Data cl)) eqn:Hopen; [done|].
  destruct (ch_room (Data cl)) eqn:Hroom; simpl in Hd; simplify_eq; simpl;
    rewrite lookup_insert_eq; eexists; (split; [done|]); simpl.
  - rewrite lookup_delete_eq. split_and!; try done. right. right.
    by split_and!.
  - split_and!; try done. right. left. by split_and!.
Qed.

Lemma deliver_alloc m c w wc :
  deliver m c w = Some wc → is_Some (heap w !! c).
Proof.
  unfold deliver. destruct (heap w !! c); [by eexists|done].
Qed.

Section Order.
Context `{RangeOrder}.

(** What routing a message does to any one client. *)
Lemma route_client m w g w' c cl :
  route m w = Some (g, w') → heap w !! c = Some cl →
  ∃ cl', heap w' !! c = Some cl'
    ∧ Socket cl' = Socket cl ∧ ID cl' = ID cl ∧ Hostname cl' = Hostname cl
    ∧ ((cl' = cl ∧ Clients w' !! c = Clients w !! c)
       ∨ (is_Some (Clients w !! c) ∧ eligible (store w) m cl = true
          ∧ ch_log (Data cl') = ch_log (Data cl) ++ [Marshal m]
          ∧ ch_closed (Data cl') = false
          ∧ Clients w' !! c = Clients w !! c)
       ∨ (is_Some (Clients w !! c) ∧ eligible (store w) m cl = true
          ∧ ch_room (Data cl) = 0
          ∧ ch_log (Data cl') = ch_log (Data cl)
          ∧ ch_closed (Data cl') = true
          ∧ Clients w' !! c = None)).
Proof.
  intros Hr Hc. unfold route in Hr.
  destruct (IsInFilter (Content m)).
  { simplify_eq. exists cl. split_and!; try done. by left. }
  destruct (fanout m (range_keys (Clients w)) w) as [w1|] eqn:Hf;
    simpl in Hr; [|done].
  simplify_eq. simpl.
  destruct (Clients w !! c) as [b|] eqn:Hreg.
  - destruct (fanout_at m (range_keys (Clients w)) w w1 c
                (range_keys_NoDup (Clients w))) as (wc & Hd & -> & ->);
      [apply range_keys_elem; by rewrite Hreg|done|].
    destruct (deliver_result m c w wc cl Hc Hd)
      as (cl' & Hc' & ? & ? & ? & [(?&?&?)|[(?&?&?&?)|(?&?&?&?&?)]]).
    + exists cl'. split_and!; try done. left. split; [done|]. congruence.
    + exists cl'. split_and!; try done. right. left.
      split_and!; try done. congruence.
    + exists cl'. split_and!; try done. right. right. by split_and!.
  - destruct (fanout_frame m _ w w1 Hf) as (_ & _ & _ & Hout).
    destruct (Hout c) as [-> ->].
    { rewrite range_keys_elem, Hreg. by intros [? ?]. }
    exists cl. split_and!; try done. left. by rewrite Hreg.
Qed.

Lemma route_frame m w g w' :
  route m w = Some (g, w') →
  store w' = store w ∧ Router w' = Router w
  ∧ ∀ c, Clients w !! c = None →
         heap w' !! c = heap w !! c ∧ Clients w' !! c = None.
Proof.
  intros Hr. unfold route in Hr.
  destruct (IsInFilter (Content m)); [by simplify_eq|].
  destruct (fanout m (range_keys (Clients w)) w) as [w1|] eqn:Hf;
    simpl in Hr; [|done].
  simplify_eq. simpl.
  destruct (fanout_frame m _ w w1 Hf) as (? & ? & _ & Hout).
  split_and!; try done. intros c Hreg.
  destruct (Hout c) as [-> ->]; [|done].
  rewrite range_keys_elem, Hreg. by intros [? ?].
Qed.

Lemma route_registered_alloc m w g w' c :
  route m w = Some (g, w') → IsInFilter (Content m) = false →
  is_Some (Clients w !! c) → is_Some (heap w !! c).
Proof.
  intros Hr Hpass Hreg. unfold route in Hr. rewrite Hpass in Hr.
  destruct (fanout m (range_keys (Clients w)) w) as [w1|] eqn:Hf;
    simpl in Hr; [|done].
  destruct (fanout_at m (range_keys (Clients w)) w w1 c
              (range_keys_NoDup (Clients w))) as (wc & Hd & _);
    [by apply range_keys_elem|done|].
  by eapply deliver_alloc.
Qed.

(** X13: routing a message changes no binding, writes to no socket and
    closes none, leaves the identity store and the router's queue alone,
    and registers nobody: a registration is kept as it is or deleted. *)
Theorem X13_route_only_touches_mailboxes (m : Deliverable) (w : World)
  (g : Routine) (w' : World) :
  route m w = Some (g, w') →
  store w' = store w ∧ Router w' = Router w
  ∧ (∀ c cl, heap w !! c = Some cl →
       ∃ cl', heap w' !! c = Some cl'
              ∧ Socket cl' = Socket cl
              ∧ ID cl' = ID cl ∧ Hostname cl' = Hostname cl)
  ∧ (∀ c, heap w !! c = None → heap w' !! c = None)
  ∧ (∀ c, Clients w' !! c = Clients w !! c ∨ Clients w' !! c = None).
Proof.
  intros Hr. destruct (route_frame m w g w' Hr) as (Hst & Hq & Hout).
  split; [done|]. split; [done|]. split; [|split].
  - intros c cl Hc.
    destruct (route_client m w g w' c cl Hr Hc) as (cl' & ? & ? & ? & ? & _).
    by exists cl'.
  - intros c Hc. destruct (IsInFilter (Content m)) eqn:Hflt.
    + rewrite route_filtered in Hr by done. by simplify_eq.
    + destruct (Clients w !! c) as [b|] eqn:Hreg.
      * destruct (route_registered_alloc m w g w' c Hr Hflt) as [cl Hcl];
          [by rewrite Hreg|]. congruence.
      * destruct (Hout c Hreg) as [-> _]. done.
  - intros c. destruct (Clients w !! c) as [b|] eqn:Hreg.
    + destruct (IsInFilter (Content m)) eqn:Hflt.
      { rewrite route_filtered in Hr by done. simplify_eq. by left. }
      destruct (route_registered_alloc m w g w' c Hr Hflt) as [cl Hcl];
        [by rewrite Hreg|].
      destruct (route_client m w g w' c cl Hr Hcl)
        as (cl' & _ & _ & _ & _ & [(_&->)|[(_&_&_&_&->)|(_&_&_&_&_&->)]]);
        rewrite ?Hreg; by eauto.
    + destruct (Hout c Hreg) as [_ ->]. by left.
Qed.

(** X14: routing a message puts at most one frame on any mailbox, the
    encoded message; it does so only for a connection that is registered,
    stays registered, and is a recipient: bound to another id than the
    author's, with a record whose receive channels meet the message's
    target channels. *)
Theorem X14_at_most_one_copy_and_only_to_recipients (m : Deliverable)
  (w : World) (g : Routine) (w' : World) (c : ptr) (cl : RelayClient) :
  route m w = Some (g, w') → heap w !! c = Some cl →
  ∃ cl', heap w' !! c = Some cl'
    ∧ (ch_log (Data cl') = ch_log (Data cl)
       ∨ (ch_log (Data cl') = ch_log (Data cl) ++ [Marshal m]
          ∧ is_Some (Clients w !! c) ∧ is_Some (Clients w' !! c)
          ∧ recipient w m cl)).
Proof.
  intros Hr Hc.
  destruct (route_client m w g w' c cl Hr Hc)
    as (cl' & Hc' & _ & _ & _ & [(->&_)|[(Hreg&He&Hlog&_&Hcs)|(_&_&_&Hlog&_)]]).
  - exists cl. split; [done|]. by left.
  - exists cl'. split; [done|]. right. split_and!; try done.
    + by rewrite Hcs.
    + by apply eligible_recipient.
  - exists cl'. split; [done|]. by left.
Qed.

(** X15: a connection that is not in the registry, because it was evicted
    or removed, is out of reach of the router: routing a message leaves
    its mailbox and the rest of it as they were, and does not register it
    again. *)
Theorem X15_unregistered_out_of_reach (m : Deliverable) (w : World)
  (g : Routine) (w' : World) (c : ptr) :
  route m w = Some (g, w') → Clients w !! c = None →
  heap w' !! c = heap w !! c ∧ Clients w' !! c = None.
Proof.
  intros Hr Hreg. destruct (route_frame m w g w' Hr) as (_ & _ & Hout).
  by apply Hout.
Qed.

(** X16: while the store holds no record under the empty id, a connection
    that has not authenticated gets no message: routing leaves its mailbox
    as it was and does not evict it. *)
Theorem X16_unauthenticated_gets_nothing (m : Deliverable) (w : World)
  (g : Routine) (w' : World) (c : ptr) (cl : RelayClient) :
  route m w = Some (g, w') → heap w !! c = Some cl →
  Authenticated cl = false → store w !! "" = None →
  heap w' !! c = Some cl ∧ Clients w' !! c = Clients w !! c.
Proof.
  intros Hr Hc Hauth Hnone.
  assert (ID cl = "") as Hid.
  { destruct (decide (ID cl = "")) as [|Hne]; [done|].
    apply Authenticated_nonempty in Hne. congruence. }
  assert (eligible (store w) m cl = false) as Hne.
  { unfold eligible, entity.GetEntity. rewrite Hid, Hnone.
    by destruct (entity.get_fault ""). }
  destruct (route_client m w g w' c cl Hr Hc)
    as (cl' & Hc' & _ & _ & _ & [(->&?)|[(_&He&_)|(_&He&_)]]);
    [done|congruence..].
Qed.

End Order.
End RouterProperties.

(** ** The order of the fan-out and the routing loop *)
Section RoutingOrder.
Context `{Codec} `{Filter} `{entity.Faults}.

(** The loop over a list of distinct clients panics exactly when the body
    panics on one of them in the world at loop entry. *)
Lemma fanout_some_iff m l : ∀ w,
  NoDup l →
  is_Some (fanout m l w) ↔ ∀ c, c ∈ l → is_Some (deliver m c w).
Proof.
  induction l as [|c l IH]; intros w Hnd; simpl.
  - split; [|by eexists]. intros _ c Hc. by apply not_elem_of_nil in Hc.
  - apply NoDup_cons in Hnd as [Hc Hnd]. split.
    + intros [w' Hf] d Hd.
      destruct (fanout_at m (c :: l) w w' d) as (wd & -> & _);
        [by apply NoDup_cons|done|done|by eexists].
    + intros Hall. destruct (Hall c) as [w1 Hd]; [by left|].
      rewrite Hd. simpl. apply IH; [done|]. intros d Hdl.
      destruct (Hall d) as [wd Hwd]; [by right|].
      destruct (deliver_frame m c w w1 Hd) as (Hs & _ & _ & Hfr).
      destruct (Hfr d) as [Hh Hcs]; [by intros ->|].
      destruct (deliver_cong m d w w1 wd) as (wd' & -> & _); done.
Qed.

(** The result of the loop does not depend on the order of the visit. *)
Lemma fanout_perm m l1 l2 w :
  NoDup l1 → l1 ≡ₚ l2 → fanout m l1 w = fanout m l2 w.
Proof.
  intros Hnd1 Hperm.
  assert (NoDup l2) as Hnd2 by (by rewrite <- Hperm).
  destruct (fanout m l1 w) as [w1|] eqn:Hf1.
  - assert (is_Some (fanout m l2 w)) as [w2 Hf2].
    { apply fanout_some_iff; [done|]. intros c Hc.
      apply (fanout_some_iff m l1 w Hnd1); [by eexists|by rewrite Hperm]. }
    rewrite Hf2. f_equal.
    destruct (fanout_frame m l1 w w1 Hf1) as (Hs1 & Hr1 & Hb1 & Hout1).
    destruct (fanout_frame m l2 w w2 Hf2) as (Hs2 & Hr2 & Hb2 & Hout2).
    assert (∀ c, heap w1 !! c = heap w2 !! c
                 ∧ Clients w1 !! c = Clients w2 !! c) as Hpt.
    { intros c. destruct (decide (c ∈ l1)) as [Hin|Hnin].
      - destruct (fanout_at m l1 w w1 c Hnd1 Hin Hf1) as (wc & Hd & -> & ->).
        destruct (fanout_at m l2 w w2 c Hnd2) as (wc' & Hd' & -> & ->);
          [by rewrite <- Hperm|done|].
        by simplify_eq.
      - destruct (Hout1 c Hnin) as [-> ->].
        destruct (Hout2 c) as [-> ->]; [by rewrite <- Hperm|done]. }
    apply World_eq; try congruence; apply map_eq; intros c; apply Hpt.
  - destruct (fanout m l2 w) as [w2|] eqn:Hf2; [|done].
    assert (is_Some (fanout m l1 w)) as [w1 Hf1'].
    { apply fanout_some_iff; [done|]. intros c Hc.
      apply (fanout_some_iff m l2 w Hnd2); [by eexists|by rewrite <- Hperm]. }
    congruence.
Qed.

Lemma route_order (O1 O2 : RangeOrder) m w :
  route (H2 := O1) m w = route (H2 := O2) m w.
Proof.
  unfold route. destruct (IsInFilter (Content m)); [done|].
  rewrite (fanout_perm m (range_keys (RangeOrder := O1) (Clients w))
             (range_keys (RangeOrder := O2) (Clients w)) w); [done| |].
  - apply range_keys_NoDup.
  - by rewrite !range_keys_perm.
Qed.

(** X17: the routing loop gives the same world whatever the order in
    which each [range] over the registry visits the clients: the same
    mailboxes get a frame, the same clients are evicted, and a panic in one
    order is a panic in every order. *)
Theorem X17_routing_independent_of_map_order (O1 O2 : RangeOrder)
  (w : World) :
  StartRouting (H2 := O1) w = StartRouting (H2 := O2) w.
Proof.
  unfold StartRouting. generalize (Router w) as pending. intros pending.
  revert w. induction pending as [|m pending IH]; intros w; simpl; [done|].
  rewrite (route_order O1 O2).
  destruct (route m (set_Router pending w)) as [[[] w1]|]; simpl; [|done..].
  apply IH.
Qed.

Context `{RangeOrder}.

(** X18: the bridge is handed the messages submitted before the first
    filter hit, in the order of submission, and the loop is then gone with
    everything after the hit still on the router's queue; without a hit
    every message is handed over and the loop is back at its receive.
    Evictions on the way stop nothing, and every registered mailbox is
    still open at the end. *)
Theorem X18_bridge_gets_prefix_before_filter_hit
  (pre rest : list Deliverable) :
  ∀ (w : World),
  registered_open w = true →
  Forall (λ m, IsInFilter (Content m) = false) pre →
  match rest with
  | [] => True
  | bad :: _ => IsInFilter (Content bad) = true
  end →
  ∃ w', routing (pre ++ rest) w
        = Some (match rest with [] => Receiving | _ => Returned end, w')
    ∧ Bot w' = Bot w ++ pre
    ∧ Router w' = tail rest
    ∧ registered_open w' = true.
Proof.
  induction pre as [|m pre IH]; intros w Hwf Hpre Hrest.
  - rewrite app_nil_l, app_nil_r. destruct rest as [|bad post].
    + simpl. eexists. by split_and!.
    + rewrite (routing_filter_hit bad post w Hrest).
      eexists. by split_and!.
  - apply Forall_cons in Hpre as [Hm Hpre]. simpl.
    destruct (route_each m (set_Router (pre ++ rest) w))
      as (w1 & Hr & _ & _ & Hb & _); [done..|].
    rewrite Hr. simpl.
    destruct (IH w1) as (w' & Hl & Hb' & Hq & Hwf'); [|done|done|].
    { by apply (route_registered_open m (set_Router (pre ++ rest) w)
                  Receiving w1). }
    exists w'. split_and!; try done.
    rewrite Hb', Hb. simpl. by rewrite <- app_assoc.
Qed.

End RoutingOrder.

(** ** From the socket of one client to the mailbox of another *)
Section EndToEnd.
Context `{Codec} `{Filter} `{entity.Faults} `{RangeOrder}.

(** X19: a chat packet from an authenticated connection, once dispatched and
    routed, puts on the mailbox of every registered recipient with room
    exactly one frame: the encoding of a message whose author id and
    hostname are those bound to the sending connection, whatever sender
    the packet's header names; the same message then goes to the bridge. *)
Theorem X19_chat_packet_reaches_recipient (x y : ptr) (clx cly : RelayClient)
  (buf : bytes) (w : World) (base : BaseMessage) (reader : bytes) :
  registered_open w = true → Router w = [] →
  heap w !! x = Some clx → Authenticated clx = true →
  ParseBaseMessage buf = (base, reader) → Type_ base = MessageChat →
  let msg := ParseChatMessage (with_sender (ID clx) (Hostname clx) base) reader in
  IsInFilter (Content msg) = false →
  is_Some (Clients w !! y) → heap w !! y = Some cly →
  recipient w msg cly → 0 < ch_room (Data cly) →
  ∃ w1 w2 cly', HandlePacket x buf w = Some w1
    ∧ StartRouting w1 = Some (Receiving, w2)
    ∧ heap w2 !! y = Some cly'
    ∧ ch_log (Data cly') = ch_log (Data cly) ++ [Marshal msg]
    ∧ Author msg = ID clx
    ∧ protocol.Hostname (Base msg) = Hostname clx
    ∧ Bot w2 = Bot w ++ [msg]
    ∧ Router w2 = [].
Proof.
  intros Hwf Hq Hx Hauth Hp Hty msg Hpass Hreg Hy Hrec Hroom.
  assert (Type_ base ≠ MessageAuthenticate) as Hna by (rewrite Hty; discriminate).
  set (w1 := set_Router (Router w ++ [msg]) w).
  assert (HandlePacket x buf w = Some w1) as Hh.
  { rewrite (HandlePacket_other x buf w base reader clx Hp Hna Hx), Hauth.
    simpl. by rewrite Hty. }
  set (wr := set_Router [] w1).
  destruct (route_each msg wr Hwf Hpass)
    as (w' & Hr & _ & Hq' & Hb & _ & Hin).
  destruct (Hin y Hreg) as (wy & Hd & Hhy & _).
  destruct (registered_open_lookup w y Hwf Hreg) as (cly0 & Hy0 & Hopen).
  assert (cly0 = cly) as -> by congruence.
  destruct (try_send_room (Data cly) (Marshal msg) Hopen Hroom)
    as (ch & Hs & Hlog & _).
  rewrite (deliver_sent msg y wr cly ch) in Hd;
    [|done|by apply eligible_recipient|done].
  simplify_eq. simpl in Hhy. rewrite lookup_insert_eq in Hhy.
  exists w1, (set_Router [] w'), (with_Data ch cly).
  split; [done|]. split.
  { unfold StartRouting. change (Router w1) with (Router w ++ [msg]).
    rewrite Hq. simpl. change (set_Router [] w1) with wr. by rewrite Hr. }
  by split_and!.
Qed.

End EndToEnd.

(** ** More of the model on concrete worlds *)
Section MoreExamples.
Import demo.
#[local] Existing Instances codec no_spam sound_store key_order.

Lemma X1_RemoveClient_twice_witness :
  ∃ w', RemoveClient 2%positive (w0 []) = Some w'
        ∧ Clients w' !! 2%positive = None
        ∧ RemoveClient 2%positive w' = Some w'.
Proof.
  refine (X1_RemoveClient_twice 2%positive (w0 []) (waiting "tok2" "srvB") _ _);
    vm_compute; reflexivity.
Defined.

Lemma X2_accept_then_remove_witness :
  ∃ w' cl', RemoveClient 7%positive
              (ProcessConnections_accept 7%positive open_conn (w0 []))
            = Some w'
    ∧ Clients w' = Clients (w0 [])
    ∧ heap w' !! 7%positive = Some cl'
    ∧ ch_closed (Data cl') = true ∧ ch_log (Data cl') = []
    ∧ Socket cl' = open_conn ∧ Authenticated cl' = false
    ∧ (∀ d, d ≠ 7%positive → heap w' !! d = heap (w0 []) !! d)
    ∧ Router w' = Router (w0 []) ∧ Bot w' = Bot (w0 [])
    ∧ store w' = store (w0 []).
Proof.
  refine (X2_accept_then_remove 7%positive open_conn (w0 []) _).
  vm_compute. reflexivity.
Defined.


Lemma X4_unauthenticated_packets_dropped_witness :
  ListenClientReceive 1%positive
    [Some (frame x03 "evil" "fake" "hi"); Some (frame x09 "" "" "")] w_new
  = Some w_new.
Proof.
  refine (X4_unauthenticated_packets_dropped 1%positive _ w_new
            (waiting "" "") _ _ _).
  - vm_compute. reflexivity.
  - reflexivity.
  - apply Forall_cons_2; [eexists; split; [reflexivity|vm_compute; reflexivity]|].
    apply Forall_cons_2; [eexists; split; [reflexivity|vm_compute; reflexivity]|].
    apply Forall_nil_2.
Defined.

Lemma X5_undeclared_type_disconnects_witness :
  ∃ w' cl', HandlePacket 1%positive (frame x09 "" "" "") (w0 []) = Some w'
    ∧ Clients w' !! 1%positive = None
    ∧ heap w' !! 1%positive = Some cl'
    ∧ ch_closed (Data cl') = true
    ∧ ch_log (Data cl') = ch_log (Data (waiting "tok1" "srvA"))
    ∧ sock_closed (Socket cl') = true
    ∧ sock_out (Socket cl') = sock_out (Socket (waiting "tok1" "srvA"))
    ∧ Router w' = Router (w0 []) ∧ Bot w' = Bot (w0 [])
    ∧ store w' = store (w0 []).
Proof.
  refine (X5_undeclared_type_disconnects 1%positive (frame x09 "" "" "")
            (w0 []) (waiting "tok1" "srvA") 9%N _ _ _ _ _).
  - vm_compute. reflexivity.
  - vm_compute. reflexivity.
  - by eexists.
  - reflexivity.
  - vm_compute. reflexivity.
Defined.

Lemma X6_read_error_ends_connection_witness :
  ∃ w' cl', ListenClientReceive 1%positive
              [Some (frame x03 "evil" "fake" "hi"); None] (w0 [])
            = Some w'
    ∧ Clients w' !! 1%positive = None
    ∧ heap w' !! 1%positive = Some cl'
    ∧ ch_closed (Data cl') = true
    ∧ sock_closed (Socket cl') = true.
Proof.
  refine (X6_read_error_ends_connection 1%positive _ (w0 [])
            (waiting "tok1" "srvA") _ _ _ _).
  - vm_compute. reflexivity.
  - vm_compute. reflexivity.
  - by eexists.
  - right. left.
Defined.


Lemma X8_no_anonymous_submission_witness :
  ∃ w' msgs, ListenClientReceive 1%positive session w_new = Some w'
    ∧ Router w' = Router w_new ++ msgs
    ∧ Forall (λ m, Author m ≠ "") msgs.
Proof.
  refine (X8_no_anonymous_submission 1%positive session w_new
            (waiting "" "") _ _); vm_compute; reflexivity.
Defined.

Lemma X9_one_response_per_authenticate_witness :
  ∃ w' cl', ListenClientReceive 1%positive session w_new = Some w'
    ∧ heap w' !! 1%positive = Some cl'
    ∧ sock_out (Socket cl')
      = sock_out (Socket (waiting "" ""))
        ++ response_frames (frames_until_close session).
Proof.
  refine (X9_one_response_per_authenticate 1%positive session w_new
            (waiting "" "") _ _); vm_compute; reflexivity.
Defined.

Lemma X10_no_record_for_empty_id_witness :
  ∃ w', ListenClientReceive 1%positive session w_new = Some w'
        ∧ store w' !! "" = None.
Proof.
  refine (X10_no_record_for_empty_id 1%positive session w_new
            (waiting "" "") _ _ _); vm_compute; reflexivity.
Defined.

Lemma X11_authenticate_then_submit_witness :
  ∃ w1 msg,
    HandlePacket 1%positive (frame x01 "" "hostZ" "tok9") w_new = Some w1
    ∧ Router w1 = Router w_new
    ∧ HandlePacket 1%positive (frame x03 "evil" "fake" "hi") w1
      = Some (set_Router (Router w_new ++ [msg]) w1)
    ∧ Author msg = "tok9"
    ∧ protocol.Hostname (Base msg) = "hostZ".
Proof.
  refine (X11_authenticate_then_submit 1%positive (waiting "" "")
            (frame x01 "" "hostZ" "tok9") (frame x03 "evil" "fake" "hi") w_new
            {| Type_ := MessageAuthenticate; SenderID := "";
               protocol.Hostname := "hostZ" |}
            {| Type_ := MessageChat; SenderID := "evil";
               protocol.Hostname := "fake" |}
            (cstring "tok9") (cstring "hi") _ _ _ _ _ _ _ _).
  - vm_compute. reflexivity.
  - vm_compute. reflexivity.
  - reflexivity.
  - vm_compute. discriminate.
  - vm_compute. discriminate.
  - intros [_ Hins]. vm_compute in Hins. discriminate.
  - vm_compute. reflexivity.
  - left. reflexivity.
Defined.

Lemma X12_send_loop_writes_in_order_witness :
  ∃ w' cl', ListenClientSend 2%positive
              [Some [x01]; Some [x02]; None; Some [x03]] (w0 [])
            = Some w'
    ∧ heap w' !! 2%positive = Some cl'
    ∧ sock_out (Socket cl') = [[x01]; [x02]]
    ∧ sock_closed (Socket cl') = true.
Proof.
  destruct (X12_send_loop_writes_in_order 2%positive
              [Some [x01]; Some [x02]; None; Some [x03]] (w0 [])
              (waiting "tok2" "srvB"))
    as (w' & cl' & Hl & Hc & Hout & Hcl & _); [vm_compute; reflexivity|].
  exists w', cl'. split_and!; try done.
  apply Hcl. right. right. right. left.
Defined.

Lemma X13_route_only_touches_mailboxes_witness :
  ∃ g w', route hello (w0 []) = Some (g, w')
    ∧ store w' = store (w0 []) ∧ Router w' = Router (w0 [])
    ∧ (∀ c cl, heap (w0 []) !! c = Some cl →
         ∃ cl', heap w' !! c = Some cl'
                ∧ Socket cl' = Socket cl
                ∧ ID cl' = ID cl ∧ Hostname cl' = Hostname cl)
    ∧ (∀ c, heap (w0 []) !! c = None → heap w' !! c = None)
    ∧ (∀ c, Clients w' !! c = Clients (w0 []) !! c ∨ Clients w' !! c = None).
Proof.
  destruct (route hello (w0 [])) as [[g w']|] eqn:Hr;
    [|vm_compute in Hr; discriminate].
  exists g, w'. split; [reflexivity|].
  exact (X13_route_only_touches_mailboxes hello (w0 []) g w' Hr).
Defined.

Lemma X14_at_most_one_copy_and_only_to_recipients_witness :
  ∃ g w' cl', route hello (w0 []) = Some (g, w')
    ∧ heap w' !! 2%positive = Some cl'
    ∧ (ch_log (Data cl') = ch_log (Data (waiting "tok2" "srvB"))
       ∨ (ch_log (Data cl')
          = ch_log (Data (waiting "tok2" "srvB")) ++ [Marshal hello]
          ∧ is_Some (Clients (w0 []) !! 2%positive)
          ∧ is_Some (Clients w' !! 2%positive)
          ∧ recipient (w0 []) hello (waiting "tok2" "srvB"))).
Proof.
  destruct (route hello (w0 [])) as [[g w']|] eqn:Hr;
    [|vm_compute in Hr; discriminate].
  destruct (X14_at_most_one_copy_and_only_to_recipients hello (w0 []) g w'
              2%positive (waiting "tok2" "srvB") Hr)
    as (cl' & Hc & Hlog); [vm_compute; reflexivity|].
  exists g, w', cl'. by split_and!.
Defined.

Lemma X15_unregistered_out_of_reach_witness :
  ∃ g1 w1 g2 w2, route hello (w0 []) = Some (g1, w1)
    ∧ Clients w1 !! 3%positive = None
    ∧ route hello w1 = Some (g2, w2)
    ∧ heap w2 !! 3%positive = heap w1 !! 3%positive
    ∧ Clients w2 !! 3%positive = None.
Proof.
  destruct (route hello (w0 [])) as [[g1 w1]|] eqn:Hr1;
    [|vm_compute in Hr1; discriminate].
  assert (Clients w1 !! 3%positive = None) as Hgone.
  { vm_compute in Hr1. injection Hr1 as <- <-. vm_compute. reflexivity. }
  destruct (route hello w1) as [[g2 w2]|] eqn:Hr2.
  - exists g1, w1, g2, w2. split; [reflexivity|]. split; [exact Hgone|].
    split; [exact Hr2|].
    exact (X15_unregistered_out_of_reach hello w1 g2 w2 3%positive Hr2 Hgone).
  - vm_compute in Hr1. injection Hr1 as <- <-. vm_compute in Hr2.
    discriminate.
Defined.

Lemma X16_unauthenticated_gets_nothing_witness :
  ∃ g w', route hello w_new = Some (g, w')
    ∧ heap w' !! 1%positive = Some (waiting "" "")
    ∧ Clients w' !! 1%positive = Clients w_new !! 1%positive.
Proof.
  destruct (route hello w_new) as [[g w']|] eqn:Hr;
    [|vm_compute in Hr; discriminate].
  exists g, w'. split; [reflexivity|].
  refine (X16_unauthenticated_gets_nothing hello w_new g w' 1%positive
            (waiting "" "") Hr _ _ _); vm_compute; reflexivity.
Defined.

Lemma X18_bridge_gets_prefix_before_filter_hit_witness :
  ∃ w', routing ([hello] ++ [spam; hello]) (w0 []) = Some (Returned, w')
    ∧ Bot w' = Bot (w0 []) ++ [hello]
    ∧ Router w' = [hello]
    ∧ registered_open w' = true.
Proof.
  refine (X18_bridge_gets_prefix_before_filter_hit [hello] [spam; hello]
            (w0 []) _ _ _).
  - vm_compute. reflexivity.
  - apply Forall_cons_2; [vm_compute; reflexivity|apply Forall_nil_2].
  - vm_compute. reflexivity.
Defined.

Lemma X19_chat_packet_reaches_recipient_witness :
  ∃ w1 w2 y', HandlePacket 1%positive (frame x03 "evil" "fake" "hello") (w0 [])
              = Some w1
    ∧ StartRouting w1 = Some (Receiving, w2)
    ∧ heap w2 !! 2%positive = Some y'
    ∧ ch_log (Data y') = [Marshal hello]
    ∧ Bot w2 = [hello].
Proof.
  destruct (X19_chat_packet_reaches_recipient 1%positive 2%positive
              (waiting "tok1" "srvA") (waiting "tok2" "srvB")
              (frame x03 "evil" "fake" "hello") (w0 [])
              {| Type_ := MessageChat; SenderID := "evil";
                 protocol.Hostname := "fake" |} (cstring "hello"))
    as (w1 & w2 & y' & Hh & Hs & Hy & Hlog & _ & _ & Hb & _).
  - vm_compute. reflexivity.
  - reflexivity.
  - vm_compute. reflexivity.
  - reflexivity.
  - vm_compute. reflexivity.
  - reflexivity.
  - vm_compute. reflexivity.
  - by eexists.
  - vm_compute. reflexivity.
  - apply eligible_recipient. vm_compute. reflexivity.
  - vm_compute. lia.
  - exists w1, w2, y'. by split_and!.
Defined.

End MoreExamples.
